(** * vehicle_manager: a shallow embedding of [src/vehicle_manager.py]

    The development follows the Python module top to bottom: the two
    dataclasses, the HTTP accessor methods of [VehicleManager], and the
    Haversine distance with the nearest-neighbour scan built on it.

    Numbers.  Python [int] is [Z].  Python [float] is read in two ways.
    - In exact arithmetic: a float is a real number of the Standard Library,
      [sin], [cos], [sqrt] and [asin] are the exact functions, and the
      [ValueError] that [math.sqrt] and [math.asin] raise outside their
      domain is an explicit error result.  The records, the accessor methods
      and the nearest-neighbour scan are stated on this reading.
    - On binary64 (module [Binary64]): a float is a primitive float with the
      IEEE 754 operations of the kernel, and the functions of the C library
      are a parameter.  This reading carries the statements that are about
      the floats themselves.

    Effects.  Every method runs in a state-and-exception monad.  The state
    holds the store of [Vehicle] objects (so that [vars(vehicle)] can alias
    its argument) and the log of HTTP requests issued so far; the answers of
    the remote API are an environment of type [Remote]. *)

From Stdlib Require Import ZArith List Reals Lra Lia.
From Stdlib Require Floats.
From stdpp Require Import base option list gmap strings pretty.

Import ListNotations.

(** ** Exceptions and results *)

Inductive exn : Type :=
| ValueError
| TypeError
| OverflowError.

Inductive result (A : Type) : Type :=
| Ok (a : A)
| Raise (e : exn).

Arguments Ok {A} a.
Arguments Raise {A} e.

Definition result_bind {A B : Type} (r : result A) (k : A -> result B) : result B :=
  match r with
  | Ok a => k a
  | Raise e => Raise e
  end.

#[global] Instance result_ret : MRet result := @Ok.
#[global] Instance result_mbind : MBind result := fun A B k r => result_bind r k.

(** ** The dataclasses *)

Module Coordinates.
Record t : Type := mk { latitude : R; longitude : R }.
End Coordinates.

Module Vehicle.
Record t : Type := mk {
  name : string;
  model : string;
  year : Z;
  color : string;
  price : R;
  latitude : R;
  longitude : R;
  id : option Z
}.

Definition set_id (v : t) (i : option Z) : t :=
  mk (name v) (model v) (year v) (color v) (price v) (latitude v) (longitude v) i.
End Vehicle.

(** ** Geodesy: [_get_distance] *)

Section Geodesy.
Local Open Scope R_scope.

(** The radius of earth in metres. *)
Definition R_M : R := 6371000.

(** [math.radians]. *)
Definition radians (x : R) : R := x * (PI / 180).

(** [math.sqrt]: [ValueError] on a negative argument. *)
Definition py_sqrt (x : R) : result R :=
  if Rlt_dec x 0 then Raise ValueError else Ok (sqrt x).

(** [math.asin]: [ValueError] outside [-1, 1]. *)
Definition py_asin (x : R) : result R :=
  if Rlt_dec x (-1) then Raise ValueError
  else if Rlt_dec 1 x then Raise ValueError
  else Ok (asin x).

(** The value [P] of the source, the haversine of the central angle. *)
Definition haversine_P (coord1 coord2 : Coordinates.t) : R :=
  let lo1 := radians (Coordinates.longitude coord1) in
  let lo2 := radians (Coordinates.longitude coord2) in
  let la1 := radians (Coordinates.latitude coord1) in
  let la2 := radians (Coordinates.latitude coord2) in
  let d_lo := lo2 - lo1 in
  let d_la := la2 - la1 in
  sin (d_la / 2) ^ 2 + cos la1 * cos la2 * sin (d_lo / 2) ^ 2.

Definition _get_distance (coord1 coord2 : Coordinates.t) : result R :=
  let P := haversine_P coord1 coord2 in
  s ← py_sqrt P;
  a ← py_asin s;
  let Q := 2 * a in
  Ok (Q * R_M).

End Geodesy.

(** ** JSON values and the remote API *)

(** The JSON scalars that occur in a vehicle object. *)
Inductive json : Type :=
| JNull
| JInt (n : Z)
| JFloat (x : R)
| JStr (s : string).

(** Python's [==] on these values: an [int] and a [float] compare by value,
    values of unrelated types are unequal. *)
Definition py_eq (a b : json) : bool :=
  match a, b with
  | JNull, JNull => true
  | JInt m, JInt n => bool_decide (m = n)
  | JInt m, JFloat y => if Req_dec_T (IZR m) y then true else false
  | JFloat x, JInt n => if Req_dec_T x (IZR n) then true else false
  | JFloat x, JFloat y => if Req_dec_T x y then true else false
  | JStr s, JStr t => bool_decide (s = t)
  | _, _ => false
  end.

(** The resource a request addresses: [{url}/vehicles] or [{url}/vehicles/{id}]. *)
Inductive resource : Type :=
| Vehicles
| VehicleById (id : Z).

Inductive request : Type :=
| GET (url : string) (r : resource)
| POST (url : string) (r : resource) (body : gmap string json).

(** What the remote API answers ([response.json()]), per request. *)
Record Remote : Type := {
  vehicles_json : list (gmap string json);
  vehicle_json : Z -> gmap string json;
  post_json : gmap string json -> gmap string json
}.

(** ** State, and the monad of the accessor methods *)

(** A reference to a [Vehicle] object; its attribute dictionary lives in the
    store under the same reference. *)
Definition loc : Type := positive.

Record World : Type := {
  objs : gmap loc Vehicle.t;
  sent : list request
}.

Definition M (A : Type) : Type := World -> result A * World.

Definition ret {A : Type} (a : A) : M A := fun w => (Ok a, w).

Definition bind {A B : Type} (m : M A) (k : A -> M B) : M B :=
  fun w =>
    match m w with
    | (Ok a, w') => k a w'
    | (Raise e, w') => (Raise e, w')
    end.

Definition lift {A : Type} (r : result A) : M A := fun w => (r, w).

#[global] Instance M_ret : MRet M := @ret.
#[global] Instance M_bind : MBind M := fun A B k m => bind m k.

Definition requests_get_vehicles (api : Remote) (url : string) : M (list (gmap string json)) :=
  fun w => (Ok (vehicles_json api), Build_World (objs w) (sent w ++ [GET url Vehicles])).

Definition requests_get_vehicle (api : Remote) (url : string) (id : Z) : M (gmap string json) :=
  fun w => (Ok (vehicle_json api id), Build_World (objs w) (sent w ++ [GET url (VehicleById id)])).

Definition requests_post (api : Remote) (url : string) (body : gmap string json) : M (gmap string json) :=
  fun w => (Ok (post_json api body), Build_World (objs w) (sent w ++ [POST url Vehicles body])).

(** ** Building a [Vehicle] from keyword arguments, and [vars(vehicle)] *)

Definition Vehicle_fields : gset string :=
  list_to_set ["name"; "model"; "year"; "color"; "price"; "latitude"; "longitude"; "id"]%string.

Definition as_str (j : json) : option string :=
  match j with JStr s => Some s | _ => None end.

Definition as_int (j : json) : option Z :=
  match j with JInt n => Some n | _ => None end.

(** A field annotated [float] also holds an [int] (the tests pass [price=21000]). *)
Definition as_float (j : json) : option R :=
  match j with JInt n => Some (IZR n) | JFloat x => Some x | _ => None end.

(** The [id] keyword: absent means the default [None]. *)
Definition as_id (j : option json) : option (option Z) :=
  match j with
  | None | Some JNull => Some None
  | Some (JInt n) => Some (Some n)
  | Some _ => None
  end.

(** The generated [__init__]: an unexpected keyword or a missing required one
    is a [TypeError].  The dataclass itself does not check the types of its
    fields; the model keeps to type-correct records and reports any other
    value as [TypeError] too. *)
Definition Vehicle_init (kw : gmap string json) : result Vehicle.t :=
  if decide (dom kw ⊆ Vehicle_fields) then
    match
      n ← kw !! "name" ≫= as_str;
      m ← kw !! "model" ≫= as_str;
      y ← kw !! "year" ≫= as_int;
      c ← kw !! "color" ≫= as_str;
      p ← kw !! "price" ≫= as_float;
      la ← kw !! "latitude" ≫= as_float;
      lo ← kw !! "longitude" ≫= as_float;
      i ← as_id (kw !! "id");
      Some (Vehicle.mk n m y c p la lo i)
    with
    | Some v => Ok v
    | None => Raise TypeError
    end
  else Raise TypeError.

Definition json_of_id (i : option Z) : json :=
  match i with Some n => JInt n | None => JNull end.

(** The attribute dictionary of a [Vehicle], as it is serialised by [json=data]. *)
Definition Vehicle_dict (v : Vehicle.t) : gmap string json :=
  <["name" := JStr (Vehicle.name v)]>
  (<["model" := JStr (Vehicle.model v)]>
  (<["year" := JInt (Vehicle.year v)]>
  (<["color" := JStr (Vehicle.color v)]>
  (<["price" := JFloat (Vehicle.price v)]>
  (<["latitude" := JFloat (Vehicle.latitude v)]>
  (<["longitude" := JFloat (Vehicle.longitude v)]>
  (<["id" := json_of_id (Vehicle.id v)]> ∅))))))).

(** [vars(vehicle)] is the object's own [__dict__]: the same reference, not a copy. *)
Definition vars (vehicle : loc) : loc := vehicle.

(** [data['id'] = n] on the attribute dictionary [data]. *)
Definition setitem_id (data : loc) (n : Z) : M unit :=
  fun w =>
    match objs w !! data with
    | Some v => (Ok tt, Build_World (<[data := Vehicle.set_id v (Some n)]> (objs w)) (sent w))
    | None => (Raise TypeError, w)
    end.

(** The dictionary [data] as [requests] serialises it at the time of the call. *)
Definition read_dict (data : loc) : M (gmap string json) :=
  fun w =>
    match objs w !! data with
    | Some v => (Ok (Vehicle_dict v), w)
    | None => (Raise TypeError, w)
    end.

(** ** [VehicleManager] *)

Record VehicleManager : Type := { url : string }.

(** The running minimum of the nearest-neighbour scan starts at [float('inf')]. *)
Inductive bound : Type :=
| Infinity
| Finite (x : R).

(** [distance < min_distance]. *)
Definition below (distance : R) (min_distance : bound) : bool :=
  match min_distance with
  | Infinity => true
  | Finite m => if Rlt_dec distance m then true else false
  end.

(** [max] of a sequence of integers: [ValueError] when it is empty. *)
Definition py_max (xs : list Z) : result Z :=
  match xs with
  | [] => Raise ValueError
  | x :: rest => Ok (foldl Z.max x rest)
  end.

(** Truth value of an [id]: [None] and [0] are false. *)
Definition truthy_id (i : option Z) : bool :=
  match i with
  | Some n => negb (n =? 0)%Z
  | None => false
  end.

(** [vehicle.id for vehicle in vehicles if vehicle.id]. *)
Definition truthy_ids (vehicles : list Vehicle.t) : list Z :=
  omap (fun vehicle => if truthy_id (Vehicle.id vehicle) then Vehicle.id vehicle else None)
       vehicles.

Definition coordinates_of (v : Vehicle.t) : Coordinates.t :=
  Coordinates.mk (Vehicle.latitude v) (Vehicle.longitude v).

(** [key in vehicle_data and vehicle_data[key] == value]. *)
Definition matches (vehicle_data : gmap string json) (key : string) (value : json) : bool :=
  match vehicle_data !! key with
  | Some x => py_eq x value
  | None => false
  end.

(** The loop of [get_vehicles]. *)
Fixpoint build_vehicles (vehicles_data : list (gmap string json)) (vehicles : list Vehicle.t)
  : result (list Vehicle.t) :=
  match vehicles_data with
  | [] => Ok vehicles
  | vehicle_data :: rest =>
      v ← Vehicle_init vehicle_data;
      build_vehicles rest (vehicles ++ [v])
  end.

(** The inner loop of [filter_vehicles], over [params.items()]. *)
Fixpoint filter_items (vehicle_data : gmap string json) (items : list (string * json))
    (vehicles : list Vehicle.t) : result (list Vehicle.t) :=
  match items with
  | [] => Ok vehicles
  | (key, value) :: rest =>
      if matches vehicle_data key value then
        v ← Vehicle_init vehicle_data;
        filter_items vehicle_data rest (vehicles ++ [v])
      else filter_items vehicle_data rest vehicles
  end.

(** The outer loop of [filter_vehicles]. *)
Fixpoint filter_loop (vehicles_data : list (gmap string json)) (items : list (string * json))
    (vehicles : list Vehicle.t) : result (list Vehicle.t) :=
  match vehicles_data with
  | [] => Ok vehicles
  | vehicle_data :: rest =>
      vehicles' ← filter_items vehicle_data items vehicles;
      filter_loop rest items vehicles'
  end.

(** The loop of [get_nearest_vehicle]. *)
Fixpoint nearest_loop (id : Z) (coord1 : Coordinates.t) (vehicles : list Vehicle.t)
    (min_distance : bound) (nearest_vehicle : option Vehicle.t) : result (option Vehicle.t) :=
  match vehicles with
  | [] => Ok nearest_vehicle
  | v :: rest =>
      if decide (Vehicle.id v ≠ Some id) then
        let coord2 := coordinates_of v in
        distance ← _get_distance coord1 coord2;
        if below distance min_distance
        then nearest_loop id coord1 rest (Finite distance) (Some v)
        else nearest_loop id coord1 rest min_distance nearest_vehicle
      else nearest_loop id coord1 rest min_distance nearest_vehicle
  end.

Section Methods.
Context (api : Remote) (self : VehicleManager).

Definition get_vehicles : M (list Vehicle.t) :=
  vehicles_data ← requests_get_vehicles api (url self);
  lift (build_vehicles vehicles_data []).

(** [params] is given by its items, in the order [params.items()] yields them. *)
Definition filter_vehicles (params : list (string * json)) : M (list Vehicle.t) :=
  vehicles_data ← requests_get_vehicles api (url self);
  lift (filter_loop vehicles_data params []).

Definition get_vehicle (id : Z) : M Vehicle.t :=
  vehicle_data ← requests_get_vehicle api (url self) id;
  lift (Vehicle_init vehicle_data).

(** [print(response.text)] writes to standard output only and is left out. *)
Definition add_vehicle (vehicle : loc) : M Vehicle.t :=
  let data := vars vehicle in
  vehicles ← get_vehicles;
  m ← lift (py_max (truthy_ids vehicles));
  setitem_id data (m + 1)%Z;;
  body ← read_dict data;
  response ← requests_post api (url self) body;
  lift (Vehicle_init response).

Definition get_distance (id1 id2 : Z) : M R :=
  vehicle1 ← get_vehicle id1;
  vehicle2 ← get_vehicle id2;
  let coord1 := coordinates_of vehicle1 in
  let coord2 := coordinates_of vehicle2 in
  lift (_get_distance coord1 coord2).

Definition get_nearest_vehicle (id : Z) : M (option Vehicle.t) :=
  vehicles ← get_vehicles;
  vehicle ← get_vehicle id;
  let coord1 := coordinates_of vehicle in
  lift (nearest_loop id coord1 vehicles Infinity None).
End Methods.

(** ** The distance on binary64 floats *)

(** The same function once more, on the floats Python computes with.  The
    arithmetic is IEEE 754 binary64 (the kernel's primitive floats); [sin],
    [cos], [asin] and [pow] belong to the C library and are a parameter. *)
Module Binary64.
Import Stdlib.Floats.Floats.
Local Open Scope float_scope.

Module Coordinates.
Record t : Type := mk { latitude : float; longitude : float }.
End Coordinates.

(** The functions of the C library that the [math] module and [**] call. *)
Record Libm : Type := {
  c_sin : float -> float;
  c_cos : float -> float;
  c_asin : float -> float;
  c_pow : float -> float -> float
}.

Definition R_M : float := 6371000.

Definition pi : float := 0x1.921fb54442d18p+1.

(** [math.radians]: a multiplication by the constant [pi / 180]. *)
Definition radians (x : float) : float := x * (pi / 180).

(** How the [math] module calls a C function of one argument: a [nan] that
    does not come from a [nan], or an infinity out of a finite argument, is a
    [ValueError]. *)
Definition math_1 (func : float -> float) (x : float) : result float :=
  let r := func x in
  if is_nan r && negb (is_nan x) then Raise ValueError
  else if is_infinity r && is_finite x then Raise ValueError
  else Ok r.

(** [iv ** 2] on a float: zero, one, infinities and [nan] are answered
    without the C library, a negative base is replaced by its absolute value
    (the exponent is even), and an overflow of [pow] is an [OverflowError]. *)
Definition float_pow_2 (libm : Libm) (iv : float) : result float :=
  if is_nan iv then Ok iv
  else if is_infinity iv then Ok (abs iv)
  else if iv =? 0 then Ok 0
  else
    let iv := if iv <? 0 then - iv else iv in
    if iv =? 1 then Ok 1
    else
      let ix := c_pow libm iv 2 in
      if is_infinity ix then Raise OverflowError else Ok ix.

(** The value [P] of the source, operands evaluated left to right. *)
Definition haversine_P (libm : Libm) (coord1 coord2 : Coordinates.t) : result float :=
  let lo1 := radians (Coordinates.longitude coord1) in
  let lo2 := radians (Coordinates.longitude coord2) in
  let la1 := radians (Coordinates.latitude coord1) in
  let la2 := radians (Coordinates.latitude coord2) in
  let d_lo := lo2 - lo1 in
  let d_la := la2 - la1 in
  s_la ← math_1 (c_sin libm) (d_la / 2);
  h_la ← float_pow_2 libm s_la;
  c1 ← math_1 (c_cos libm) la1;
  c2 ← math_1 (c_cos libm) la2;
  s_lo ← math_1 (c_sin libm) (d_lo / 2);
  h_lo ← float_pow_2 libm s_lo;
  Ok (h_la + c1 * c2 * h_lo).

Definition _get_distance (libm : Libm) (coord1 coord2 : Coordinates.t) : result float :=
  P ← haversine_P libm coord1 coord2;
  s ← math_1 sqrt P;
  a ← math_1 (c_asin libm) s;
  let Q := 2 * a in
  Ok (Q * R_M).

(** Two antipodal points: 8 degrees north on the prime meridian, 8 degrees
    south on the 180th. *)
Definition north : Coordinates.t := Coordinates.mk 8 0.
Definition south : Coordinates.t := Coordinates.mk (-8) 180.


(** The fixture of the specification, (55.753215, 37.620393), as the two
    binary64 values these decimals denote. *)
Definition fixture : Coordinates.t := Coordinates.mk 0x1.be069595feda6p+5 0x1.2cf6909aed56bp+5.

(** A C library cut down to the first term of each series.  It meets what the
    statements below assume of the C library, and shows that this can be met. *)
Definition libm_crude : Libm := {|
  c_sin x := x;
  c_cos x := 1;
  c_asin x := x;
  c_pow x y := x * x
|}.
End Binary64.

(** ** Vocabulary of the statements *)




(** The number of items of [params] that [vehicle_data] matches. *)
Definition match_count (vehicle_data : gmap string json) (items : list (string * json)) : nat :=
  length (List.filter (fun kv => matches vehicle_data kv.1 kv.2) items).

(** ** Example data *)

Definition example_json (i : json) (la lo : Z) : gmap string json :=
  <["name" := JStr "Toyota"]>
  (<["model" := JStr "Camry"]>
  (<["year" := JInt 2021]>
  (<["color" := JStr "red"]>
  (<["price" := JInt 21000]>
  (<["latitude" := JInt la]>
  (<["longitude" := JInt lo]>
  (<["id" := i]> ∅))))))).

Definition example_vehicle (i : option Z) (la lo : Z) : Vehicle.t :=
  Vehicle.mk "Toyota" "Camry" 2021 "red" (IZR 21000) (IZR la) (IZR lo) i.

(** An inventory of three vehicles; the server answers a [POST] with the
    payload under an [id] of its own choice. *)
Definition example_api : Remote := {|
  vehicles_json :=
    [example_json (JInt 1) 55 37; example_json (JInt 2) 56 38; example_json (JInt 3) 10 10];
  vehicle_json := fun id => example_json (JInt id) 55 37;
  post_json := fun body => <["id" := JInt 100]> body
|}.

Definition example_vehicles : list Vehicle.t :=
  [example_vehicle (Some 1%Z) 55 37; example_vehicle (Some 2%Z) 56 38;
   example_vehicle (Some 3%Z) 10 10].

(** An inventory that holds the reference vehicle only. *)
Definition lonely_api : Remote := {|
  vehicles_json := [example_json (JInt 1) 55 37];
  vehicle_json := fun id => example_json (JInt id) 55 37;
  post_json := fun body => <["id" := JInt 100]> body
|}.

(** An empty inventory. *)
Definition empty_api : Remote := {|
  vehicles_json := [];
  vehicle_json := fun id => example_json (JInt id) 55 37;
  post_json := fun body => <["id" := JInt 100]> body
|}.

Definition example_manager : VehicleManager := {| url := "https://test.tspb.su/test-task" |}.

(** A store with one [Vehicle] object, constructed without an [id]. *)
Definition example_world : World := {|
  objs := {[ 1%positive := example_vehicle None 55 37 ]};
  sent := []
|}.

Definition example_params : list (string * json) :=
  [("name", JStr "Toyota"); ("id", JInt 2)]%string.

(** ** Further vocabulary *)

(** The keywords without a default in the generated [__init__]. *)
Definition Vehicle_required : list string :=
  ["name"; "model"; "year"; "color"; "price"; "latitude"; "longitude"]%string.

(** An inventory whose second object lacks the [price]. *)
Definition broken_api : Remote := {|
  vehicles_json :=
    [example_json (JInt 1) 55 37; delete "price" (example_json (JInt 2) 56 38);
     example_json (JInt 3) 10 10];
  vehicle_json := fun id => example_json (JInt id) 55 37;
  post_json := fun body => <["id" := JInt 100]> body
|}.

Definition is_GET (r : request) : Prop :=
  match r with
  | GET _ _ => True
  | POST _ _ _ => False
  end.

(** A computation that leaves every object of the store as it is and sends
    nothing but [GET] requests, whether it returns or raises. *)
Definition read_only {A : Type} (m : M A) : Prop :=
  ∀ w : World,
    objs (m w).2 = objs w ∧
    ∃ new : list request, sent (m w).2 = sent w ++ new ∧ Forall is_GET new.

(** A server that answers a [POST] with the payload it received. *)
Definition echo_api : Remote := {|
  vehicles_json :=
    [example_json (JInt 1) 55 37; example_json (JInt 2) 56 38; example_json (JInt 3) 10 10];
  vehicle_json := fun id => example_json (JInt id) 55 37;
  post_json := fun body => body
|}.


(** ** [update_vehicle] and [delete_vehicle] *)

(** The two methods that address [{url}/vehicles/{id}] with a [PUT] or a
    [DELETE].  The path is the string the f-string builds, since
    [update_vehicle] formats an id that may be [None]. *)
Module Writes.
(** An id inside an f-string: [str(id)]. *)
Definition py_str_id (i : option Z) : string :=
  match i with
  | Some n => pretty n
  | None => "None"
  end.

(** [f"{self.url}/vehicles/{id}"]. *)
Definition vehicle_url (self : VehicleManager) (i : option Z) : string :=
  url self +:+ "/vehicles/" +:+ py_str_id i.

Inductive call : Type :=
| PUT (url : string) (body : gmap string json)
| DELETE (url : string).

(** What the remote API answers to a [PUT]. *)
Record Server : Type := {
  put_json : string -> gmap string json -> gmap string json
}.

Record State : Type := {
  objs : gmap loc Vehicle.t;
  calls : list call
}.

Definition update_vehicle (server : Server) (self : VehicleManager) (vehicle : loc)
    (s : State) : result Vehicle.t * State :=
  match objs s !! vars vehicle with
  | None => (Raise TypeError, s)
  | Some v =>
      let data := Vehicle_dict v in
      let target := vehicle_url self (Vehicle.id v) in
      (Vehicle_init (put_json server target data),
       Build_State (objs s) (calls s ++ [PUT target data]))
  end.

(** The answer to the [DELETE] is not looked at. *)
Definition delete_vehicle (self : VehicleManager) (id : Z) (s : State) : unit * State :=
  (tt, Build_State (objs s) (calls s ++ [DELETE (vehicle_url self (Some id))])).

Definition echo_server : Server := {| put_json := fun _ body => body |}.

Definition example_state : State := {|
  objs := {[ 1%positive := example_vehicle (Some 1%Z) 55 37;
             2%positive := example_vehicle None 56 38 ]};
  calls := []
|}.
End Writes.

(** * Properties *)

(** ** The distance function *)

Section GeodesyFacts.
Local Open Scope R_scope.












End GeodesyFacts.

(** ** The nearest-neighbour scan *)

Section NearestFacts.
Context (id : Z) (coord1 : Coordinates.t).






Lemma nearest_loop_no_candidate (vehicles : list Vehicle.t)
    (min_distance : bound) (nearest_vehicle : option Vehicle.t) :
  Forall (fun v => Vehicle.id v = Some id) vehicles →
  nearest_loop id coord1 vehicles min_distance nearest_vehicle = Ok nearest_vehicle.
Proof.
  induction 1 as [|v rest Hv _ IH]; [done|].
  cbn [nearest_loop]. destruct (decide (Vehicle.id v ≠ Some id)); done.
Qed.
End NearestFacts.

(** ** Running the accessor methods *)

Section MethodFacts.
Context (api : Remote) (self : VehicleManager).

Lemma get_vehicles_run (w : World) :
  get_vehicles api self w =
    (build_vehicles (vehicles_json api) [],
     Build_World (objs w) (sent w ++ [GET (url self) Vehicles])).
Proof. reflexivity. Qed.

Lemma get_vehicle_run (id : Z) (w : World) :
  get_vehicle api self id w =
    (Vehicle_init (vehicle_json api id),
     Build_World (objs w) (sent w ++ [GET (url self) (VehicleById id)])).
Proof. reflexivity. Qed.

Lemma get_nearest_vehicle_run (id : Z) (w : World) (vehicles : list Vehicle.t)
    (vehicle : Vehicle.t) :
  build_vehicles (vehicles_json api) [] = Ok vehicles →
  Vehicle_init (vehicle_json api id) = Ok vehicle →
  (get_nearest_vehicle api self id w).1 =
    nearest_loop id (coordinates_of vehicle) vehicles Infinity None.
Proof.
  intros Hvs Hv. unfold get_nearest_vehicle, mbind, M_bind, bind.
  rewrite get_vehicles_run, Hvs, get_vehicle_run, Hv. reflexivity.
Qed.

(** [add_vehicle] when the generator handed to [max] is empty. *)
Lemma add_vehicle_run_empty (vehicle : loc) (w : World) (vehicles : list Vehicle.t) :
  build_vehicles (vehicles_json api) [] = Ok vehicles →
  truthy_ids vehicles = [] →
  add_vehicle api self vehicle w =
    (Raise ValueError, Build_World (objs w) (sent w ++ [GET (url self) Vehicles])).
Proof.
  intros Hvs Hids. unfold add_vehicle, mbind, M_bind, bind.
  rewrite get_vehicles_run, Hvs, Hids. reflexivity.
Qed.

(** [add_vehicle] when [max] returns [m]. *)
Lemma add_vehicle_run_max (vehicle : loc) (w : World) (vehicles : list Vehicle.t)
    (m : Z) (v : Vehicle.t) :
  build_vehicles (vehicles_json api) [] = Ok vehicles →
  py_max (truthy_ids vehicles) = Ok m →
  objs w !! vehicle = Some v →
  let v' := Vehicle.set_id v (Some (m + 1)%Z) in
  add_vehicle api self vehicle w =
    (Vehicle_init (post_json api (Vehicle_dict v')),
     Build_World (<[vehicle := v']> (objs w))
                 (sent w ++ [GET (url self) Vehicles;
                             POST (url self) Vehicles (Vehicle_dict v')])).
Proof.
  intros Hvs Hmax Hobj v'. unfold add_vehicle, mbind, M_bind, bind.
  rewrite get_vehicles_run, Hvs. unfold lift at 1. rewrite Hmax.
  unfold setitem_id, read_dict, requests_post, vars, lift. cbn.
  rewrite Hobj. cbn. rewrite lookup_insert_eq. cbn.
  by rewrite <- app_assoc.
Qed.
End MethodFacts.

(** ** [filter_vehicles] *)

Section FilterFacts.
Lemma filter_items_count (vehicle_data : gmap string json) (v : Vehicle.t)
    (items : list (string * json)) (vehicles : list Vehicle.t) :
  Vehicle_init vehicle_data = Ok v →
  filter_items vehicle_data items vehicles =
    Ok (vehicles ++ replicate (match_count vehicle_data items) v).
Proof.
  intros Hv. revert vehicles.
  induction items as [|[key value] items IH]; intros vehicles.
  { cbn. by rewrite app_nil_r. }
  unfold match_count in *. cbn [filter_items List.filter fst snd].
  destruct (matches vehicle_data key value).
  - rewrite Hv. cbn. rewrite IH. by rewrite <- app_assoc.
  - apply IH.
Qed.

Lemma build_vehicles_Forall2 (vehicles_data : list (gmap string json))
    (acc vehicles : list Vehicle.t) :
  build_vehicles vehicles_data acc = Ok vehicles →
  ∃ vs : list Vehicle.t,
    vehicles = acc ++ vs ∧ Forall2 (fun d v => Vehicle_init d = Ok v) vehicles_data vs.
Proof.
  revert acc. induction vehicles_data as [|d rest IH]; intros acc; cbn.
  - intros [= <-]. exists []. by rewrite app_nil_r.
  - destruct (Vehicle_init d) as [v|e] eqn:Hd; cbn; [|done].
    intros Hrest. destruct (IH _ Hrest) as (vs & -> & Hall).
    exists (v :: vs). split; [by rewrite <- app_assoc|]. by constructor.
Qed.

Lemma filter_loop_count (vehicles_data : list (gmap string json)) (vs : list Vehicle.t)
    (items : list (string * json)) (vehicles : list Vehicle.t) :
  Forall2 (fun d v => Vehicle_init d = Ok v) vehicles_data vs →
  filter_loop vehicles_data items vehicles =
    Ok (vehicles ++
        mjoin (zip_with (fun d v => replicate (match_count d items) v) vehicles_data vs)).
Proof.
  intros Hall. revert vehicles.
  induction Hall as [|d v rest vs Hd _ IH]; intros vehicles; cbn.
  - by rewrite app_nil_r.
  - rewrite (filter_items_count d v) by done. cbn. rewrite IH. by rewrite <- app_assoc.
Qed.
End FilterFacts.

(** ** Binary64 arithmetic *)

Module Binary64Facts.
Import Stdlib.Floats.Floats.
Import Binary64.
Local Open Scope float_scope.


Lemma binary_round_aux_opp (s : bool) (m e : Z) (l : location) :
  binary_round_aux prec emax (negb s) m e l = SFopp (binary_round_aux prec emax s m e l).
Proof.
  unfold binary_round_aux.
  destruct (shr_fexp prec emax m e l) as [mrs' e'].
  destruct (shr_fexp prec emax _ e' loc_Exact) as [mrs'' e''].
  destruct (shr_m mrs''); [reflexivity| |reflexivity].
  destruct (Z.leb e'' _); reflexivity.
Qed.

Lemma binary_round_opp (s : bool) (m : positive) (e : Z) :
  binary_round prec emax (negb s) m e = SFopp (binary_round prec emax s m e).
Proof.
  unfold binary_round. destruct (shl_align _ _ _) as [mz ez].
  apply binary_round_aux_opp.
Qed.

Lemma SFopp_involutive (x : spec_float) : SFopp (SFopp x) = x.
Proof. destruct x as [[]|[]| |[] m e]; reflexivity. Qed.

Lemma binary_normalize_opp (m e : Z) :
  m ≠ 0%Z →
  binary_normalize prec emax (- m) e false = SFopp (binary_normalize prec emax m e false).
Proof.
  destruct m as [|p|p]; [done| |]; intros _; cbn [Z.opp binary_normalize].
  - apply (binary_round_opp false).
  - pose proof (binary_round_opp false p e) as H. cbn [negb] in H.
    by rewrite H, SFopp_involutive.
Qed.

Lemma opp_involutive (x : float) : - - x = x.
Proof. apply Prim2SF_inj. by rewrite !opp_spec, SFopp_involutive. Qed.

Lemma abs_opp (x : float) : abs (- x) = abs x.
Proof.
  apply Prim2SF_inj. rewrite !abs_spec, opp_spec.
  by destruct (Prim2SF x) as [[]|[]| |[] m e].
Qed.

Lemma SFsub_swap (x y : spec_float) :
  SF64sub x y = SF64sub y x ∨ SF64sub x y = SFopp (SF64sub y x).
Proof.
  unfold SF64sub.
  destruct x as [sx|sx| |sx mx ex], y as [sy|sy| |sy my ey];
    try (destruct sx, sy; cbn; auto; fail);
    try (destruct sx; cbn; auto; fail);
    try (destruct sy; cbn; auto; fail);
    try (cbn; auto; fail).
  cbn [SFsub]. rewrite (Z.min_comm ey ex).
  set (ez := Z.min ex ey).
  set (a := cond_Zopp sx (Z.pos (shl_align mx ex ez).1)).
  set (b := cond_Zopp sy (Z.pos (shl_align my ey ez).1)).
  destruct (decide (a - b = 0)%Z) as [Hz|Hnz].
  - left. replace (b - a)%Z with 0%Z by lia. by rewrite Hz.
  - right. replace (a - b)%Z with (- (b - a))%Z by lia.
    apply binary_normalize_opp. lia.
Qed.

Lemma sub_swap (x y : float) : x - y = y - x ∨ x - y = - (y - x).
Proof.
  destruct (SFsub_swap (Prim2SF x) (Prim2SF y)) as [H|H]; [left|right];
    apply Prim2SF_inj; rewrite ?opp_spec, !sub_spec; exact H.
Qed.

Lemma div_opp_l (x y : float) : (- x) / y = - (x / y).
Proof.
  apply Prim2SF_inj. rewrite opp_spec, !div_spec, opp_spec. unfold SF64div.
  destruct (Prim2SF x) as [sx|sx| |sx mx ex], (Prim2SF y) as [sy|sy| |sy my ey];
    cbn [SFopp SFdiv]; try reflexivity; try (by destruct sx, sy).
  destruct (SFdiv_core_binary _ _ _ _ _ _) as [[mz ez] lz].
  rewrite <- binary_round_aux_opp. by destruct sx, sy.
Qed.

Lemma mul_comm (x y : float) : x * y = y * x.
Proof.
  apply Prim2SF_inj. rewrite !mul_spec. unfold SF64mul.
  destruct (Prim2SF x) as [sx|sx| |sx mx ex], (Prim2SF y) as [sy|sy| |sy my ey];
    cbn [SFmul]; try reflexivity; try (by destruct sx, sy).
  by rewrite (xorb_comm sy sx), (Pos.mul_comm my mx), (Z.add_comm ey ex).
Qed.

Lemma SFcompare_refl_opp (x : spec_float) :
  SFcompare (SFopp x) (SFopp x) = SFcompare x x.
Proof.
  destruct x as [[]|[]| |[] m e]; cbn; try reflexivity;
    rewrite Z.compare_refl, Pos.compare_cont_refl; reflexivity.
Qed.

Lemma is_nan_opp (x : float) : is_nan (- x) = is_nan x.
Proof.
  unfold is_nan. rewrite !eqb_spec, opp_spec. unfold SFeqb.
  by rewrite SFcompare_refl_opp.
Qed.

Lemma is_infinity_opp (x : float) : is_infinity (- x) = is_infinity x.
Proof. unfold is_infinity. by rewrite abs_opp. Qed.

Lemma is_finite_opp (x : float) : is_finite (- x) = is_finite x.
Proof. unfold is_finite. by rewrite is_nan_opp, is_infinity_opp. Qed.

Lemma Prim2SF_zero : Prim2SF 0 = S754_zero false.
Proof. reflexivity. Qed.

Lemma eqb_zero_opp (x : float) : (- x =? 0) = (x =? 0).
Proof.
  rewrite !eqb_spec, opp_spec, Prim2SF_zero.
  by destruct (Prim2SF x) as [[]|[]| |[] m e].
Qed.

(** The absolute value that [float_pow] takes of a nonzero base. *)
Lemma pow_base_opp (x : float) :
  (x =? 0) = false →
  (if - x <? 0 then - - x else - x) = (if x <? 0 then - x else x).
Proof.
  rewrite eqb_spec, !ltb_spec, opp_spec, Prim2SF_zero. intros Hz.
  destruct (Prim2SF x) as [[]|[]| |[] m e] eqn:Hx; cbn in *;
    try done; rewrite ?opp_involutive; try done.
  apply Prim2SF_inj. by rewrite opp_spec, Hx.
Qed.

Lemma float_pow_2_opp (libm : Libm) (x : float) :
  float_pow_2 libm (- x) = float_pow_2 libm x.
Proof.
  unfold float_pow_2.
  rewrite is_nan_opp, is_infinity_opp, abs_opp, eqb_zero_opp.
  destruct (is_nan x) eqn:Hnan.
  { f_equal. apply Prim2SF_inj. rewrite opp_spec.
    unfold is_nan in Hnan. rewrite eqb_spec in Hnan.
    destruct (Prim2SF x) as [[]|[]| |[] m e]; cbn in Hnan; try done;
      rewrite Z.compare_refl, Pos.compare_cont_refl in Hnan; done. }
  destruct (is_infinity x); [done|].
  destruct (x =? 0) eqn:Hz; [done|].
  by rewrite pow_base_opp.
Qed.

Lemma math_1_opp (func : float → float) (x : float) :
  (∀ y : float, func (- y) = - func y) →
  math_1 func (- x) = (r ← math_1 func x; Ok (- r)).
Proof.
  intros Hodd. unfold math_1. rewrite Hodd, !is_nan_opp, is_infinity_opp, is_finite_opp.
  destruct (is_nan (func x) && negb (is_nan x)); [done|].
  by destruct (is_infinity (func x) && is_finite x).
Qed.

Lemma math_1_raise (func : float → float) (x : float) (e : exn) :
  math_1 func x = Raise e → e = ValueError.
Proof.
  unfold math_1.
  destruct (is_nan (func x) && negb (is_nan x)); [by intros [= <-]|].
  destruct (is_infinity (func x) && is_finite x); [by intros [= <-]|done].
Qed.

(** The haversine of a difference: [sin(d / 2) ** 2]. *)
Lemma hav_swap (libm : Libm) (x y : float) :
  (∀ z : float, c_sin libm (- z) = - c_sin libm z) →
  (s ← math_1 (c_sin libm) ((x - y) / 2); float_pow_2 libm s) =
  (s ← math_1 (c_sin libm) ((y - x) / 2); float_pow_2 libm s).
Proof.
  intros Hodd. destruct (sub_swap x y) as [->| ->]; [done|].
  rewrite div_opp_l, math_1_opp by done.
  destruct (math_1 (c_sin libm) ((y - x) / 2)) as [s|e]; [|done].
  cbn. apply float_pow_2_opp.
Qed.

Lemma bind_bind_ext {A B C : Type} (m m' : result A) (f f' : A → result B)
    (k k' : B → result C) :
  (x ← m; f x) = (x ← m'; f' x) →
  (∀ b : B, k b = k' b) →
  (x ← m; y ← f x; k y) = (x ← m'; y ← f' x; k' y).
Proof.
  intros H Hk. destruct m as [a|e], m' as [a'|e']; cbn in *.
  - rewrite H. destruct (f' a'); cbn; [apply Hk|done].
  - by rewrite H.
  - by rewrite <- H.
  - by injection H as ->.
Qed.

Lemma math_1_pair_swap {C : Type} (func : float → float) (x y : float)
    (k k' : float → float → result C) :
  (∀ a b : float, k a b = k' b a) →
  (a ← math_1 func x; b ← math_1 func y; k a b) =
  (b ← math_1 func y; a ← math_1 func x; k' b a).
Proof.
  intros Hk.
  destruct (math_1 func x) as [a|e] eqn:Hx, (math_1 func y) as [b|e'] eqn:Hy; cbn.
  - apply Hk.
  - done.
  - done.
  - apply math_1_raise in Hx, Hy. by subst.
Qed.

(** With a C library whose [sin] is odd, swapping the two coordinate pairs
    leaves [P] the same float, or the same error. *)
Theorem haversine_P_swap (libm : Libm) (coord1 coord2 : Coordinates.t) :
  (∀ z : float, c_sin libm (- z) = - c_sin libm z) →
  Binary64.haversine_P libm coord1 coord2 = Binary64.haversine_P libm coord2 coord1.
Proof.
  intros Hodd. unfold Binary64.haversine_P; cbv zeta.
  apply bind_bind_ext; [by apply hav_swap|]. intros h_la.
  apply math_1_pair_swap. intros c1 c2.
  apply bind_bind_ext; [by apply hav_swap|]. intros h_lo.
  by rewrite (mul_comm c1 c2).
Qed.

(** Finite results. *)

Lemma digits2_pos_size (p : positive) : digits2_pos p = Pos.size p.
Proof. induction p as [p IH|p IH|]; cbn; by rewrite ?IH. Qed.

Lemma Zdigits2_log2 (m : Z) : (0 < m)%Z → Zdigits2 m = (Z.log2 m + 1)%Z.
Proof.
  destruct m as [|p|p]; try lia. intros _. cbn [Zdigits2].
  rewrite digits2_pos_size. destruct p as [p|p|]; cbn; lia.
Qed.

Lemma Zdigits2_nonneg (m : Z) : (0 <= Zdigits2 m)%Z.
Proof. destruct m; cbn; lia. Qed.

Lemma Zdigits2_succ (m : Z) : (0 <= m)%Z → (Zdigits2 (m + 1) <= Zdigits2 m + 1)%Z.
Proof.
  intros Hm. destruct (decide (m = 0%Z)) as [->|Hne]; [by vm_compute|].
  rewrite !Zdigits2_log2 by lia.
  pose proof (Z.log2_succ_le m) as H. unfold Z.succ in H. lia.
Qed.

Lemma Zdigits2_le (a b : Z) : (0 <= a <= b)%Z → (Zdigits2 a <= Zdigits2 b)%Z.
Proof.
  intros [Ha Hab]. destruct (decide (a = 0%Z)) as [->|Hne]; [apply Zdigits2_nonneg|].
  rewrite !Zdigits2_log2 by lia.
  pose proof (Z.log2_le_mono a b Hab). lia.
Qed.

Lemma digits2_pos_mul (p q : positive) :
  (Z.pos (digits2_pos (p * q)) <= Z.pos (digits2_pos p) + Z.pos (digits2_pos q))%Z.
Proof.
  change (Zdigits2 (Z.pos (p * q)) <= Zdigits2 (Z.pos p) + Zdigits2 (Z.pos q))%Z.
  rewrite !Zdigits2_log2 by lia. rewrite Pos2Z.inj_mul.
  pose proof (Z.log2_mul_above (Z.pos p) (Z.pos q)). lia.
Qed.

Lemma shr_1_digits (r : shr_record) :
  (0 <= shr_m r)%Z →
  (0 <= shr_m (shr_1 r))%Z ∧
  Zdigits2 (shr_m (shr_1 r)) = Z.max 0 (Zdigits2 (shr_m r) - 1).
Proof.
  destruct r as [m r s]. cbn [shr_m]. intros Hm.
  destruct m as [|[p|p|]|p]; cbn; try lia.
Qed.

Lemma iter_shr_1_digits (p : positive) (r : shr_record) :
  (0 <= shr_m r)%Z →
  (0 <= shr_m (iter_pos shr_1 p r))%Z ∧
  Zdigits2 (shr_m (iter_pos shr_1 p r)) = Z.max 0 (Zdigits2 (shr_m r) - Z.pos p).
Proof.
  revert r. induction p as [p IH|p IH|]; intros r Hr; cbn [iter_pos].
  - destruct (shr_1_digits r Hr) as [H1 E1].
    destruct (IH _ H1) as [H2 E2]. destruct (IH _ H2) as [H3 E3].
    split; [done|]. rewrite E3, E2, E1. lia.
  - destruct (IH _ Hr) as [H2 E2]. destruct (IH _ H2) as [H3 E3].
    split; [done|]. rewrite E3, E2. lia.
  - by apply shr_1_digits.
Qed.

Lemma round_nearest_even_bounds (m : Z) (l : location) :
  (m <= round_nearest_even m l <= m + 1)%Z.
Proof. destruct l as [|[]]; cbn; try lia. destruct (Z.even m); lia. Qed.

(** Rounding a mantissa whose value stays below [2 ^ 1023] does not overflow. *)
Lemma binary_round_aux_finite (s : bool) (M : positive) (E : Z) :
  (Z.pos (digits2_pos M) + E <= 1023)%Z →
  (E <= 971)%Z →
  binary_round_aux prec emax s (Z.pos M) E loc_Exact = S754_zero s ∨
  ∃ (m : positive) (e : Z),
    binary_round_aux prec emax s (Z.pos M) E loc_Exact = S754_finite s m e.
Proof.
  intros Hd HE. unfold binary_round_aux, shr_fexp.
  cbn [shr_record_of_loc Zdigits2].
  set (d := Z.pos (digits2_pos M)) in *.
  assert (Hdpos : (0 < d)%Z) by (unfold d; lia).
  set (r0 := {| shr_m := Z.pos M; shr_r := false; shr_s := false |}).
  assert (Hshr : ∃ (mrs' : shr_record) (e' : Z),
             shr r0 E (fexp prec emax (d + E) - E) = (mrs', e') ∧
             (0 <= shr_m mrs')%Z ∧
             (Zdigits2 (shr_m mrs') + e' <= Z.max (d + E) (fexp prec emax (d + E)))%Z ∧
             (e' <= 970 ∨ e' = E)%Z ∧ (fexp prec emax (d + E) <= e')%Z).
  { unfold shr. destruct (fexp prec emax (d + E) - E)%Z as [|p|p] eqn:Hn.
    - exists r0, E. split; [reflexivity|]. cbn. fold d.
      unfold fexp, SpecFloat.emin, prec, emax in *. lia.
    - destruct (iter_shr_1_digits p r0) as [H1 E1]; [cbn; lia|].
      eexists _, _. split; [reflexivity|]. split; [done|].
      rewrite E1. cbn [shr_m r0 Zdigits2]. fold d.
      unfold fexp, SpecFloat.emin, prec, emax in *. lia.
    - exists r0, E. split; [reflexivity|]. cbn. fold d.
      unfold fexp, SpecFloat.emin, prec, emax in *. lia. }
  destruct Hshr as (mrs' & e' & -> & Hm' & Hd' & He' & Hfe).
  set (m1 := round_nearest_even (shr_m mrs') (loc_of_shr_record mrs')).
  pose proof (round_nearest_even_bounds (shr_m mrs') (loc_of_shr_record mrs')) as Hm1.
  fold m1 in Hm1.
  assert (Hd1 : (Zdigits2 m1 <= Zdigits2 (shr_m mrs') + 1)%Z).
  { etransitivity; [apply (Zdigits2_le m1 (shr_m mrs' + 1)); lia|].
    by apply Zdigits2_succ. }
  set (r1 := {| shr_m := m1; shr_r := false; shr_s := false |}).
  assert (Hr1 : shr_m r1 = m1) by reflexivity.
  assert (Hshr2 : ∃ (mrs'' : shr_record) (e'' : Z),
             shr r1 e' (fexp prec emax (Zdigits2 m1 + e') - e') = (mrs'', e'') ∧
             (0 <= shr_m mrs'')%Z ∧ (e'' <= 971)%Z).
  { unfold shr. destruct (fexp prec emax (Zdigits2 m1 + e') - e')%Z as [|p|p] eqn:Hn.
    - exists r1, e'. rewrite Hr1. split; [done|]. split; lia.
    - destruct (iter_shr_1_digits p r1) as [H1 _]; [rewrite Hr1; lia|].
      eexists _, _. split; [reflexivity|]. split; [done|].
      pose proof (Zdigits2_nonneg (shr_m mrs')).
      unfold fexp, SpecFloat.emin, prec, emax in *. lia.
    - exists r1, e'. rewrite Hr1. split; [done|]. split; lia. }
  destruct Hshr2 as (mrs'' & e'' & -> & Hm'' & He'').
  destruct (shr_m mrs'') as [|m|m]; [by left| |lia].
  right. exists m, e''. by rewrite (proj2 (Z.leb_le _ _)) by (unfold emax, prec; lia).
Qed.

Lemma SFmul_finite (sx : bool) (mx : positive) (ex : Z) (sy : bool) (my : positive) (ey : Z) :
  (Z.pos (digits2_pos mx) + ex + (Z.pos (digits2_pos my) + ey) <= 1023)%Z →
  (ex + ey <= 971)%Z →
  SF64mul (S754_finite sx mx ex) (S754_finite sy my ey) = S754_zero (xorb sx sy) ∨
  ∃ (m : positive) (e : Z),
    SF64mul (S754_finite sx mx ex) (S754_finite sy my ey) = S754_finite (xorb sx sy) m e.
Proof.
  intros Hd He. unfold SF64mul. cbn [SFmul].
  apply binary_round_aux_finite; [|done].
  pose proof (digits2_pos_mul mx my). lia.
Qed.

Lemma Prim2SF_finite_bounds (x : float) (s : bool) (m : positive) (e : Z) :
  Prim2SF x = S754_finite s m e →
  (Z.pos (digits2_pos m) <= 53)%Z ∧ (e <= 971)%Z.
Proof.
  intros Hx. pose proof (Prim2SF_valid x) as Hv. rewrite Hx in Hv.
  cbn in Hv. unfold bounded, canonical_mantissa in Hv.
  apply andb_prop in Hv as [Hc Hb].
  apply Z.eqb_eq in Hc. apply Z.leb_le in Hb.
  unfold fexp, SpecFloat.emin, prec, emax in *. lia.
Qed.

Lemma is_finite_spec (x : float) :
  is_finite x = true ↔
  match Prim2SF x with S754_zero _ | S754_finite _ _ _ => True | _ => False end.
Proof.
  unfold is_finite, is_nan, is_infinity.
  rewrite !eqb_spec, abs_spec.
  change (Prim2SF infinity) with (S754_infinity false).
  destruct (Prim2SF x) as [[]|[]| |[] m e]; cbn;
    rewrite ?Z.compare_refl, ?Pos.compare_cont_refl; cbn; naive_solver.
Qed.

Lemma sub_diag_finite (x : float) : is_finite x = true → x - x = 0.
Proof.
  intros Hx. apply is_finite_spec in Hx. apply Prim2SF_inj.
  rewrite sub_spec, Prim2SF_zero. unfold SF64sub.
  destruct (Prim2SF x) as [[]|[]| |s m e]; cbn [SFsub]; try done.
  by rewrite Z.sub_diag.
Qed.

Lemma radians_finite (x : float) : is_finite x = true → is_finite (radians x) = true.
Proof.
  intros Hx. apply is_finite_spec in Hx. apply is_finite_spec.
  unfold radians. rewrite mul_spec.
  change (Prim2SF (pi / 180)) with (S754_finite false 5030569068109113 (-58)).
  destruct (Prim2SF x) as [s|s| |s m e] eqn:HX; try done.
  destruct (Prim2SF_finite_bounds x s m e HX) as [Hd He].
  destruct (SFmul_finite s m e false 5030569068109113 (-58)) as [->|(m' & e' & ->)];
    [cbn; lia|lia|done|done].
Qed.

(** A float of magnitude at most one. *)
Lemma leb_one_spec (c : float) :
  (abs c <=? 1) = true →
  (∃ s : bool, Prim2SF c = S754_zero s) ∨
  ∃ (s : bool) (m : positive) (e : Z), Prim2SF c = S754_finite s m e ∧ (e <= -52)%Z.
Proof.
  rewrite leb_spec, abs_spec.
  change (Prim2SF 1) with (S754_finite false 4503599627370496 (-52)).
  destruct (Prim2SF c) as [s|s| |s m e]; unfold SFabs, SFleb, SFcompare.
  - intros _. left. by exists s.
  - done.
  - done.
  - intros H. right. exists s, m, e. split; [done|].
    destruct (Z.compare_spec e (-52)) as [Heq|Hlt|Hgt]; [lia|lia|].
    cbv beta iota in H. discriminate H.
Qed.

Lemma unit_is_finite (c : float) : (abs c <=? 1) = true → is_finite c = true.
Proof.
  intros H. apply is_finite_spec.
  destruct (leb_one_spec c H) as [[s ->]|(s & m & e & -> & _)]; done.
Qed.

Lemma unit_mul_self_zero (c : float) : (abs c <=? 1) = true → c * c * 0 = 0.
Proof.
  intros H. apply Prim2SF_inj. rewrite (mul_spec (c * c)), mul_spec, Prim2SF_zero.
  destruct (leb_one_spec c H) as [[s HC]|(s & m & e & HC & He)]; rewrite HC.
  - by destruct s.
  - destruct (Prim2SF_finite_bounds c s m e HC) as [Hd _].
    destruct (SFmul_finite s m e s m e) as [->|(m' & e' & ->)]; [lia|lia| |];
      by destruct s.
Qed.

Lemma math_1_finite (func : float → float) (x : float) :
  is_finite (func x) = true → math_1 func x = Ok (func x).
Proof.
  unfold math_1, is_finite. intros H.
  apply negb_true_iff, orb_false_iff in H as [-> ->]. done.
Qed.
End Binary64Facts.

(** * The claims *)




Module Binary64Claims.
Import Stdlib.Floats.Floats.
Import Binary64 Binary64Facts.
Local Open Scope float_scope.


(** C3. On binary64, with a C library whose [sin] and [asin] map zero to
    zero and whose [cos] stays within magnitude one, the distance from any
    finite coordinate pair to itself is the float [0.0] exactly, and no
    [ValueError] is raised on the way. *)
Theorem distance_self (libm : Libm) (coord : Coordinates.t) :
  c_sin libm 0 = 0 →
  c_asin libm 0 = 0 →
  (∀ x : float, is_finite x = true → (abs (c_cos libm x) <=? 1) = true) →
  is_finite (Coordinates.latitude coord) = true →
  is_finite (Coordinates.longitude coord) = true →
  Binary64._get_distance libm coord coord = Ok 0.
Proof.
  intros Hsin Hasin Hcos Hla Hlo.
  apply radians_finite in Hla, Hlo.
  unfold Binary64._get_distance, Binary64.haversine_P; cbv zeta.
  generalize dependent (radians (Coordinates.latitude coord)). intros la Hla.
  generalize dependent (radians (Coordinates.longitude coord)). intros lo Hlo.
  rewrite !sub_diag_finite by done.
  change (0 / 2) with 0.
  assert (Hs : math_1 (c_sin libm) 0 = Ok 0).
  { rewrite math_1_finite; rewrite Hsin; done. }
  rewrite Hs. cbn.
  change (float_pow_2 libm 0) with (Ok 0 : result float). cbn.
  rewrite (math_1_finite (c_cos libm) la) by (by apply unit_is_finite, Hcos). cbn.
  rewrite unit_mul_self_zero by (by apply Hcos).
  change (0 + 0) with 0.
  change (math_1 sqrt 0) with (Ok 0 : result float). cbn.
  rewrite math_1_finite; rewrite Hasin; done.
Qed.

Lemma distance_self_witness :
  Binary64._get_distance libm_crude fixture fixture = Ok 0.
Proof.
  apply (distance_self libm_crude fixture).
  - reflexivity.
  - reflexivity.
  - intros x _. reflexivity.
  - reflexivity.
  - reflexivity.
Defined.

(** C4. On binary64, with a C library whose [sin] is odd, the distance from
    [coord1] to [coord2] and the distance from [coord2] to [coord1] are the
    same outcome: the same float, or the same error. *)
Theorem distance_swap (libm : Libm) (coord1 coord2 : Coordinates.t) :
  (∀ z : float, c_sin libm (- z) = - c_sin libm z) →
  Binary64._get_distance libm coord1 coord2 = Binary64._get_distance libm coord2 coord1.
Proof.
  intros Hodd. unfold Binary64._get_distance.
  by rewrite (haversine_P_swap libm coord1 coord2).
Qed.

Lemma distance_swap_witness :
  Binary64._get_distance libm_crude north south =
  Binary64._get_distance libm_crude south north.
Proof.
  apply (distance_swap libm_crude north south).
  intros z. reflexivity.
Defined.
End Binary64Claims.

(** C5. When no fetched vehicle has an id different from the reference id,
    [get_nearest_vehicle] returns [None]: no exception, and not the reference
    vehicle. *)
Theorem get_nearest_vehicle_no_candidate (api : Remote) (self : VehicleManager) (id : Z)
    (w : World) (vehicles : list Vehicle.t) (vehicle : Vehicle.t) :
  build_vehicles (vehicles_json api) [] = Ok vehicles →
  Vehicle_init (vehicle_json api id) = Ok vehicle →
  Forall (fun v => Vehicle.id v = Some id) vehicles →
  (get_nearest_vehicle api self id w).1 = Ok None.
Proof.
  intros Hvs Hv Hall.
  rewrite (get_nearest_vehicle_run api self id w vehicles vehicle) by done.
  by apply nearest_loop_no_candidate.
Qed.

Lemma get_nearest_vehicle_no_candidate_witness :
  (get_nearest_vehicle lonely_api example_manager 1 example_world).1 = Ok None.
Proof.
  apply (get_nearest_vehicle_no_candidate lonely_api example_manager 1 example_world
           [example_vehicle (Some 1%Z) 55 37] (example_vehicle (Some 1%Z) 55 37)).
  - reflexivity.
  - reflexivity.
  - apply Forall_cons. split; [reflexivity|apply Forall_nil_2].
Defined.

(** C6, as the code has it. [add_vehicle] fetches the inventory, computes the
    new id itself as one more than the largest nonzero id fetched, and posts
    the record with that id to the create endpoint; what it returns is built
    from the server's answer. *)
Theorem add_vehicle_posts_computed_id (api : Remote) (self : VehicleManager)
    (vehicle : loc) (w : World) (vehicles : list Vehicle.t) (m : Z) (v : Vehicle.t) :
  build_vehicles (vehicles_json api) [] = Ok vehicles →
  py_max (truthy_ids vehicles) = Ok m →
  objs w !! vehicle = Some v →
  let body := Vehicle_dict (Vehicle.set_id v (Some (m + 1)%Z)) in
  sent (add_vehicle api self vehicle w).2 =
    sent w ++ [GET (url self) Vehicles; POST (url self) Vehicles body] ∧
  body !! "id" = Some (JInt (m + 1)) ∧
  (add_vehicle api self vehicle w).1 = Vehicle_init (post_json api body).
Proof.
  intros Hvs Hmax Hobj body.
  rewrite (add_vehicle_run_max api self vehicle w vehicles m v) by done.
  done.
Qed.

Lemma add_vehicle_posts_computed_id_witness :
  let body := Vehicle_dict (Vehicle.set_id (example_vehicle None 55 37) (Some (3 + 1)%Z)) in
  sent (add_vehicle example_api example_manager 1%positive example_world).2 =
    sent example_world ++
      [GET (url example_manager) Vehicles; POST (url example_manager) Vehicles body] ∧
  body !! "id" = Some (JInt (3 + 1)) ∧
  (add_vehicle example_api example_manager 1%positive example_world).1 =
    Vehicle_init (post_json example_api body).
Proof.
  apply (add_vehicle_posts_computed_id example_api example_manager 1%positive example_world
           example_vehicles 3 (example_vehicle None 55 37)).
  - reflexivity.
  - reflexivity.
  - reflexivity.
Defined.

(** C6, as the claim has it, fails: for a record constructed without an id
    the payload sent to the create endpoint already carries the id 4, one
    more than the largest id of the inventory, and not an unassigned id. *)
Lemma add_vehicle_id_chosen_by_client :
  Vehicle.id <$> objs example_world !! 1%positive = Some None ∧
  ∃ body : gmap string json,
    sent (add_vehicle example_api example_manager 1%positive example_world).2 =
      [GET (url example_manager) Vehicles; POST (url example_manager) Vehicles body] ∧
    body !! "id" = Some (JInt 4) ∧ body !! "id" ≠ Some JNull.
Proof.
  split; [reflexivity|].
  exists (Vehicle_dict (example_vehicle (Some 4%Z) 55 37)).
  split; [reflexivity|]. split; [reflexivity|]. intros H. discriminate H.
Qed.


(** C8. [filter_vehicles] returns each fetched vehicle once per item of
    [params] that one of its fields matches: a single matching item is enough
    for it to be returned, and a vehicle matching [k] items is returned [k]
    times in a row. *)
Theorem filter_vehicles_once_per_match (api : Remote) (self : VehicleManager)
    (params : list (string * json)) (w : World) (vehicles : list Vehicle.t) :
  build_vehicles (vehicles_json api) [] = Ok vehicles →
  (filter_vehicles api self params w).1 =
    Ok (mjoin (zip_with (fun d v => replicate (match_count d params) v)
                        (vehicles_json api) vehicles)).
Proof.
  intros Hvs.
  destruct (build_vehicles_Forall2 _ _ _ Hvs) as (vs & -> & Hall).
  unfold filter_vehicles, mbind, M_bind, bind, requests_get_vehicles, lift. cbn.
  by rewrite (filter_loop_count _ vs).
Qed.

Lemma filter_vehicles_once_per_match_witness :
  (filter_vehicles example_api example_manager example_params example_world).1 =
    Ok (mjoin (zip_with (fun d v => replicate (match_count d example_params) v)
                        (vehicles_json example_api) example_vehicles)).
Proof.
  apply (filter_vehicles_once_per_match example_api example_manager example_params
           example_world example_vehicles).
  reflexivity.
Defined.

(** The vehicle with id 2 matches both items and is returned twice, the two
    others match the name only and are returned once. *)
Example filter_vehicles_example :
  (filter_vehicles example_api example_manager example_params example_world).1 =
    Ok [example_vehicle (Some 1%Z) 55 37;
        example_vehicle (Some 2%Z) 56 38; example_vehicle (Some 2%Z) 56 38;
        example_vehicle (Some 3%Z) 10 10].
Proof. reflexivity. Qed.

(** C9. [add_vehicle] writes the computed id into the object it was given:
    the payload is that object's own attribute dictionary, so after the call
    the caller's vehicle has the id that was sent, and every other object of
    the store is as before. *)
Theorem add_vehicle_mutates_argument (api : Remote) (self : VehicleManager)
    (vehicle : loc) (w : World) (vehicles : list Vehicle.t) (m : Z) (v : Vehicle.t) :
  build_vehicles (vehicles_json api) [] = Ok vehicles →
  py_max (truthy_ids vehicles) = Ok m →
  objs w !! vehicle = Some v →
  let w' := (add_vehicle api self vehicle w).2 in
  objs w' !! vehicle = Some (Vehicle.set_id v (Some (m + 1)%Z)) ∧
  Vehicle.id <$> objs w' !! vehicle = Some (Some (m + 1)%Z) ∧
  ∀ other : loc, other ≠ vehicle → objs w' !! other = objs w !! other.
Proof.
  intros Hvs Hmax Hobj w'. subst w'.
  rewrite (add_vehicle_run_max api self vehicle w vehicles m v) by done. cbn.
  rewrite lookup_insert_eq. split; [done|]. split; [done|].
  intros other Hne. by rewrite lookup_insert_ne.
Qed.

Lemma add_vehicle_mutates_argument_witness :
  let w' := (add_vehicle example_api example_manager 1%positive example_world).2 in
  objs w' !! 1%positive = Some (Vehicle.set_id (example_vehicle None 55 37) (Some (3 + 1)%Z)) ∧
  Vehicle.id <$> objs w' !! 1%positive = Some (Some (3 + 1)%Z) ∧
  ∀ other : loc, other ≠ 1%positive → objs w' !! other = objs example_world !! other.
Proof.
  apply (add_vehicle_mutates_argument example_api example_manager 1%positive example_world
           example_vehicles 3 (example_vehicle None 55 37)).
  - reflexivity.
  - reflexivity.
  - reflexivity.
Defined.

(** C10. When no fetched vehicle has an assigned id, in particular when the
    inventory is empty, [add_vehicle] raises the [ValueError] of [max] on an
    empty sequence; the only request sent is the [GET], no [POST], and the
    store is left as it was. *)
Theorem add_vehicle_raises_without_ids (api : Remote) (self : VehicleManager)
    (vehicle : loc) (w : World) (vehicles : list Vehicle.t) :
  build_vehicles (vehicles_json api) [] = Ok vehicles →
  Forall (fun v => Vehicle.id v = None) vehicles →
  add_vehicle api self vehicle w =
    (Raise ValueError, Build_World (objs w) (sent w ++ [GET (url self) Vehicles])).
Proof.
  intros Hvs Hall. apply (add_vehicle_run_empty api self vehicle w vehicles Hvs).
  clear Hvs. induction Hall as [|v rest Hv _ IH]; [done|].
  unfold truthy_ids in *. cbn. rewrite Hv. cbn. exact IH.
Qed.

Lemma add_vehicle_raises_without_ids_witness :
  add_vehicle empty_api example_manager 1%positive example_world =
    (Raise ValueError,
     Build_World (objs example_world)
                 (sent example_world ++ [GET (url example_manager) Vehicles])).
Proof.
  apply (add_vehicle_raises_without_ids empty_api example_manager 1%positive example_world []).
  - reflexivity.
  - apply Forall_nil_2.
Defined.

(** * Further properties *)

(** ** Building and serialising a [Vehicle] *)

Lemma Vehicle_init_roundtrip (v : Vehicle.t) : Vehicle_init (Vehicle_dict v) = Ok v.
Proof. destruct v as [n m y c p la lo [i|]]; vm_compute; reflexivity. Qed.

(** X1. Serialising a vehicle with [vars] and building a vehicle from the
    resulting keywords gives the vehicle back, with or without an id. *)
Theorem Vehicle_init_dict (v : Vehicle.t) : Vehicle_init (Vehicle_dict v) = Ok v.
Proof. apply Vehicle_init_roundtrip. Qed.

(** X2. The constructor raises [TypeError] when the keywords hold a name that
    is not a field, and when a field without a default is missing. *)
Theorem Vehicle_init_rejects (kw : gmap string json) (k : string) :
  (is_Some (kw !! k) ∧ k ∉ Vehicle_fields) ∨ (k ∈ Vehicle_required ∧ kw !! k = None) →
  Vehicle_init kw = Raise TypeError.
Proof.
  intros [[Hk Hnot]|[Hreq Hnone]]; unfold Vehicle_init.
  - destruct (decide (dom kw ⊆ Vehicle_fields)) as [Hsub|]; [|done].
    exfalso. apply Hnot, Hsub. by apply elem_of_dom.
  - destruct (decide (dom kw ⊆ Vehicle_fields)); [|done].
    unfold Vehicle_required in Hreq.
    repeat (apply elem_of_cons in Hreq as [->|Hreq]);
      [..|by apply elem_of_nil in Hreq];
      rewrite Hnone;
      repeat (match goal with
              | |- context [kw !! ?s] => destruct (kw !! s) as [[]|]; cbn
              end); done.
Qed.

Lemma Vehicle_init_rejects_witness :
  Vehicle_init (delete "price" (example_json (JInt 1) 55 37)) = Raise TypeError.
Proof.
  apply (Vehicle_init_rejects (delete "price" (example_json (JInt 1) 55 37)) "price").
  right. split; [|reflexivity].
  unfold Vehicle_required. repeat constructor.
Defined.

(** ** [get_vehicles] and [filter_vehicles] *)

Lemma build_vehicles_app (good rest : list (gmap string json)) (vs acc : list Vehicle.t) :
  Forall2 (fun d v => Vehicle_init d = Ok v) good vs →
  build_vehicles (good ++ rest) acc = build_vehicles rest (acc ++ vs).
Proof.
  intros Hall. revert acc.
  induction Hall as [|d v good vs Hd _ IH]; intros acc; cbn.
  - by rewrite app_nil_r.
  - rewrite Hd. cbn. rewrite IH. by rewrite <- app_assoc.
Qed.

(** X3. [get_vehicles] succeeds exactly when every fetched object builds a
    vehicle, and then returns these vehicles one per object in the order of
    the response. *)
Theorem get_vehicles_Forall2 (api : Remote) (self : VehicleManager) (w : World)
    (vs : list Vehicle.t) :
  (get_vehicles api self w).1 = Ok vs ↔
  Forall2 (fun d v => Vehicle_init d = Ok v) (vehicles_json api) vs.
Proof.
  rewrite get_vehicles_run. cbn [fst]. split.
  - intros H. by destruct (build_vehicles_Forall2 _ _ _ H) as (vs' & -> & Hall).
  - intros Hall.
    rewrite <- (app_nil_r (vehicles_json api)).
    by rewrite (build_vehicles_app _ [] vs []).
Qed.

(** X4. [get_vehicles] stops at the first fetched object that does not build
    a vehicle and raises that object's error; the vehicles built before it
    are lost, and the single [GET] has been sent. *)
Theorem get_vehicles_first_error (api : Remote) (self : VehicleManager) (w : World)
    (good rest : list (gmap string json)) (bad : gmap string json)
    (vs : list Vehicle.t) (e : exn) :
  vehicles_json api = good ++ bad :: rest →
  Forall2 (fun d v => Vehicle_init d = Ok v) good vs →
  Vehicle_init bad = Raise e →
  get_vehicles api self w =
    (Raise e, Build_World (objs w) (sent w ++ [GET (url self) Vehicles])).
Proof.
  intros Hdata Hgood Hbad. rewrite get_vehicles_run, Hdata.
  rewrite (build_vehicles_app good (bad :: rest) vs []) by done.
  cbn. by rewrite Hbad.
Qed.

Lemma get_vehicles_first_error_witness :
  get_vehicles broken_api example_manager example_world =
    (Raise TypeError,
     Build_World (objs example_world)
                 (sent example_world ++ [GET (url example_manager) Vehicles])).
Proof.
  apply (get_vehicles_first_error broken_api example_manager example_world
           [example_json (JInt 1) 55 37] [example_json (JInt 3) 10 10]
           (delete "price" (example_json (JInt 2) 56 38))
           [example_vehicle (Some 1%Z) 55 37] TypeError).
  - reflexivity.
  - constructor; [reflexivity|constructor].
  - reflexivity.
Defined.

Lemma filter_loop_nil_items (vehicles_data : list (gmap string json))
    (vehicles : list Vehicle.t) :
  filter_loop vehicles_data [] vehicles = Ok vehicles.
Proof. induction vehicles_data as [|d rest IH]; cbn; [done|apply IH]. Qed.

(** X5. With an empty parameter mapping [filter_vehicles] returns the empty
    list, not the whole inventory, and it does so even when fetched objects
    would not build a vehicle. *)
Theorem filter_vehicles_no_params (api : Remote) (self : VehicleManager) (w : World) :
  filter_vehicles api self [] w =
    (Ok [], Build_World (objs w) (sent w ++ [GET (url self) Vehicles])).
Proof.
  unfold filter_vehicles, mbind, M_bind, bind, requests_get_vehicles, lift.
  by rewrite filter_loop_nil_items.
Qed.

Lemma filter_items_sound (d : gmap string json) (items : list (string * json))
    (acc vehicles : list Vehicle.t) :
  filter_items d items acc = Ok vehicles →
  ∃ new : list Vehicle.t,
    vehicles = acc ++ new ∧
    Forall (fun v => Vehicle_init d = Ok v ∧
                     ∃ (key : string) (value : json),
                       (key, value) ∈ items ∧ matches d key value = true) new.
Proof.
  revert acc. induction items as [|[key value] items IH]; intros acc; cbn.
  - intros [= <-]. exists []. by rewrite app_nil_r.
  - destruct (matches d key value) eqn:Hm.
    + destruct (Vehicle_init d) as [v|e] eqn:Hd; cbn; [|done].
      intros H. destruct (IH _ H) as (new & -> & Hnew).
      exists (v :: new). split; [by rewrite <- app_assoc|].
      constructor.
      * split; [done|]. exists key, value. split; [left|done].
      * eapply Forall_impl; [exact Hnew|].
        intros u (Hu & k & x & Hin & Hk). split; [done|].
        exists k, x. split; [by right|done].
    + intros H. destruct (IH _ H) as (new & -> & Hnew).
      exists new. split; [done|].
      eapply Forall_impl; [exact Hnew|].
      intros u (Hu & k & x & Hin & Hk). split; [done|].
      exists k, x. split; [by right|done].
Qed.

Lemma filter_loop_sound (vehicles_data : list (gmap string json))
    (items : list (string * json)) (acc vehicles : list Vehicle.t) :
  filter_loop vehicles_data items acc = Ok vehicles →
  ∃ new : list Vehicle.t,
    vehicles = acc ++ new ∧
    Forall (fun v => ∃ (d : gmap string json) (key : string) (value : json),
                       d ∈ vehicles_data ∧ (key, value) ∈ items ∧
                       matches d key value = true ∧ Vehicle_init d = Ok v) new.
Proof.
  revert acc. induction vehicles_data as [|d rest IH]; intros acc; cbn.
  - intros [= <-]. exists []. by rewrite app_nil_r.
  - destruct (filter_items d items acc) as [acc'|e] eqn:Hd; cbn; [|done].
    intros H. destruct (filter_items_sound _ _ _ _ Hd) as (new1 & -> & H1).
    destruct (IH _ H) as (new2 & -> & H2).
    exists (new1 ++ new2). split; [by rewrite <- app_assoc|].
    apply Forall_app. split.
    + eapply Forall_impl; [exact H1|].
      intros u (Hu & k & x & Hin & Hk). exists d, k, x. repeat split; try done. left.
    + eapply Forall_impl; [exact H2|].
      intros u (d' & k & x & Hd' & Hin & Hk & Hu). exists d', k, x.
      repeat split; try done. by right.
Qed.

Lemma filter_vehicles_sound_all (api : Remote) (self : VehicleManager)
    (params : list (string * json)) (w : World) (vehicles : list Vehicle.t) :
  (filter_vehicles api self params w).1 = Ok vehicles →
  Forall (fun v => ∃ (d : gmap string json) (key : string) (value : json),
                     d ∈ vehicles_json api ∧ (key, value) ∈ params ∧
                     matches d key value = true ∧ Vehicle_init d = Ok v) vehicles.
Proof.
  unfold filter_vehicles, mbind, M_bind, bind, requests_get_vehicles, lift. cbn.
  intros H. by destruct (filter_loop_sound _ _ _ _ H) as (new & -> & Hnew).
Qed.

(** X6. Every vehicle that [filter_vehicles] returns was built from a fetched
    object that matches at least one item of [params]. *)
Theorem filter_vehicles_sound (api : Remote) (self : VehicleManager)
    (params : list (string * json)) (w : World) (vehicles : list Vehicle.t) :
  (filter_vehicles api self params w).1 = Ok vehicles →
  Forall (fun v => ∃ (d : gmap string json) (key : string) (value : json),
                     d ∈ vehicles_json api ∧ (key, value) ∈ params ∧
                     matches d key value = true ∧ Vehicle_init d = Ok v) vehicles.
Proof. apply filter_vehicles_sound_all. Qed.

Lemma filter_vehicles_sound_witness :
  Forall (fun v => ∃ (d : gmap string json) (key : string) (value : json),
                     d ∈ vehicles_json example_api ∧ (key, value) ∈ example_params ∧
                     matches d key value = true ∧ Vehicle_init d = Ok v)
    [example_vehicle (Some 1%Z) 55 37;
     example_vehicle (Some 2%Z) 56 38; example_vehicle (Some 2%Z) 56 38;
     example_vehicle (Some 3%Z) 10 10].
Proof.
  apply (filter_vehicles_sound example_api example_manager example_params example_world).
  reflexivity.
Defined.

Lemma py_eq_int_float (n : Z) (value : json) :
  py_eq (JFloat (IZR n)) value = py_eq (JInt n) value.
Proof.
  destruct value as [|m|y|s]; cbn; try done.
  destruct (Req_dec_T (IZR n) (IZR m)) as [H|H].
  - apply eq_IZR in H. by rewrite bool_decide_eq_true_2.
  - rewrite bool_decide_eq_false_2; [done|]. by intros ->.
Qed.

(** What [vars] holds under each field name. *)
Lemma Vehicle_dict_lookup (v : Vehicle.t) :
  Vehicle_dict v !! "name" = Some (JStr (Vehicle.name v)) ∧
  Vehicle_dict v !! "model" = Some (JStr (Vehicle.model v)) ∧
  Vehicle_dict v !! "year" = Some (JInt (Vehicle.year v)) ∧
  Vehicle_dict v !! "color" = Some (JStr (Vehicle.color v)) ∧
  Vehicle_dict v !! "price" = Some (JFloat (Vehicle.price v)) ∧
  Vehicle_dict v !! "latitude" = Some (JFloat (Vehicle.latitude v)) ∧
  Vehicle_dict v !! "longitude" = Some (JFloat (Vehicle.longitude v)) ∧
  Vehicle_dict v !! "id" = Some (json_of_id (Vehicle.id v)).
Proof. repeat split; reflexivity. Qed.

(** What a successful construction says about the keywords. *)
Lemma Vehicle_init_inv (d : gmap string json) (v : Vehicle.t) :
  Vehicle_init d = Ok v →
  dom d ⊆ Vehicle_fields ∧
  d !! "name" = Some (JStr (Vehicle.name v)) ∧
  d !! "model" = Some (JStr (Vehicle.model v)) ∧
  d !! "year" = Some (JInt (Vehicle.year v)) ∧
  d !! "color" = Some (JStr (Vehicle.color v)) ∧
  d !! "price" ≫= as_float = Some (Vehicle.price v) ∧
  d !! "latitude" ≫= as_float = Some (Vehicle.latitude v) ∧
  d !! "longitude" ≫= as_float = Some (Vehicle.longitude v) ∧
  as_id (d !! "id") = Some (Vehicle.id v).
Proof.
  unfold Vehicle_init.
  destruct (decide (dom d ⊆ Vehicle_fields)) as [Hsub|]; [|done].
  generalize (d !! "name") (d !! "model") (d !! "year") (d !! "color")
             (d !! "price") (d !! "latitude") (d !! "longitude") (d !! "id").
  intros o1 o2 o3 o4 o5 o6 o7 o8 H. split; [done|].
  destruct o1 as [[]|]; try discriminate H.
  destruct o2 as [[]|]; try discriminate H.
  destruct o3 as [[]|]; try discriminate H.
  destruct o4 as [[]|]; try discriminate H.
  cbn in H.
  destruct (o5 ≫= as_float) as [p|]; try discriminate H.
  destruct (o6 ≫= as_float) as [la|]; try discriminate H.
  destruct (o7 ≫= as_float) as [lo|]; try discriminate H.
  cbn in H.
  destruct (as_id o8) as [i|]; try discriminate H.
  by injection H as <-.
Qed.

(** A vehicle matches, field by field, what the object it was built from matches. *)
Lemma Vehicle_init_matches (d : gmap string json) (v : Vehicle.t) (key : string)
    (value : json) :
  Vehicle_init d = Ok v →
  matches d key value = true →
  matches (Vehicle_dict v) key value = true.
Proof.
  intros Hinit Hm.
  destruct (Vehicle_init_inv d v Hinit)
    as (Hsub & Hn & Hmo & Hy & Hc & Hp & Hla & Hlo & Hi).
  destruct (Vehicle_dict_lookup v)
    as (Dn & Dmo & Dy & Dc & Dp & Dla & Dlo & Di).
  assert (Hkey : key ∈ Vehicle_fields).
  { apply Hsub, elem_of_dom. unfold matches in Hm. by destruct (d !! key). }
  unfold Vehicle_fields in Hkey. apply elem_of_list_to_set in Hkey.
  unfold matches in *.
  repeat (apply elem_of_cons in Hkey as [->|Hkey]); [..|by apply elem_of_nil in Hkey].
  - rewrite Dn. by rewrite Hn in Hm.
  - rewrite Dmo. by rewrite Hmo in Hm.
  - rewrite Dy. by rewrite Hy in Hm.
  - rewrite Dc. by rewrite Hc in Hm.
  - rewrite Dp. destruct (d !! "price") as [[|n|x|s]|]; cbn in Hp; try done;
      injection Hp as <-; by rewrite ?py_eq_int_float.
  - rewrite Dla. destruct (d !! "latitude") as [[|n|x|s]|]; cbn in Hla; try done;
      injection Hla as <-; by rewrite ?py_eq_int_float.
  - rewrite Dlo. destruct (d !! "longitude") as [[|n|x|s]|]; cbn in Hlo; try done;
      injection Hlo as <-; by rewrite ?py_eq_int_float.
  - rewrite Di. destruct (d !! "id") as [[|n|x|s]|]; cbn in Hi; try done;
      by injection Hi as <-.
Qed.

(** X7. Every vehicle that [filter_vehicles] returns itself matches at least
    one item of [params]: the field named by the item's key equals the
    item's value.  For [{"name": "Toyota"}] every returned vehicle is a
    Toyota. *)
Theorem filter_vehicles_returned_match (api : Remote) (self : VehicleManager)
    (params : list (string * json)) (w : World) (vehicles : list Vehicle.t) :
  (filter_vehicles api self params w).1 = Ok vehicles →
  Forall (fun v => ∃ (key : string) (value : json),
                     (key, value) ∈ params ∧
                     matches (Vehicle_dict v) key value = true) vehicles.
Proof.
  intros H. apply filter_vehicles_sound_all in H.
  eapply Forall_impl; [exact H|].
  intros v (d & key & value & _ & Hin & Hm & Hd).
  exists key, value. split; [done|]. by apply (Vehicle_init_matches d).
Qed.

Lemma filter_vehicles_returned_match_witness :
  Forall (fun v => ∃ (key : string) (value : json),
                     (key, value) ∈ example_params ∧
                     matches (Vehicle_dict v) key value = true)
    [example_vehicle (Some 1%Z) 55 37;
     example_vehicle (Some 2%Z) 56 38; example_vehicle (Some 2%Z) 56 38;
     example_vehicle (Some 3%Z) 10 10].
Proof.
  apply (filter_vehicles_returned_match example_api example_manager example_params
           example_world).
  reflexivity.
Defined.

Lemma filter_items_no_match (d : gmap string json) (items : list (string * json))
    (acc : list Vehicle.t) :
  match_count d items = 0%nat → filter_items d items acc = Ok acc.
Proof.
  unfold match_count. revert acc.
  induction items as [|[key value] items IH]; intros acc; cbn; [done|].
  destruct (matches d key value); cbn; [done|]. apply IH.
Qed.

Lemma filter_items_raise (d : gmap string json) (items : list (string * json))
    (acc : list Vehicle.t) (e : exn) :
  match_count d items ≠ 0%nat →
  Vehicle_init d = Raise e →
  filter_items d items acc = Raise e.
Proof.
  unfold match_count. intros Hcount Hd. revert acc Hcount.
  induction items as [|[key value] items IH]; intros acc; cbn; [done|].
  destruct (matches d key value); cbn.
  - intros _. by rewrite Hd.
  - apply IH.
Qed.

Lemma filter_loop_succeeds_iff (vehicles_data : list (gmap string json))
    (items : list (string * json)) (acc : list Vehicle.t) :
  (∃ vehicles : list Vehicle.t, filter_loop vehicles_data items acc = Ok vehicles) ↔
  Forall (fun d => match_count d items ≠ 0%nat → ∃ v : Vehicle.t, Vehicle_init d = Ok v)
         vehicles_data.
Proof.
  revert acc. induction vehicles_data as [|d rest IH]; intros acc; cbn.
  { split; [constructor|by exists acc]. }
  rewrite Forall_cons.
  destruct (Vehicle_init d) as [v|e] eqn:Hd.
  - rewrite (filter_items_count d v) by done. cbn. rewrite IH.
    split; [intros H; split; [by exists v|done]|by intros [_ H]].
  - destruct (decide (match_count d items = 0%nat)) as [Hz|Hnz].
    + rewrite filter_items_no_match by done. cbn. rewrite IH.
      split; [intros H; split; [done|done]|by intros [_ H]].
    + rewrite (filter_items_raise d items acc e) by done. cbn.
      split; [by intros [vs Hvs]|]. intros [H _].
      by destruct (H Hnz) as [v Hv].
Qed.

(** X8. [filter_vehicles] succeeds exactly when every fetched object that
    matches some item of [params] builds a vehicle: an object that matches
    nothing is skipped before it is looked at, one that matches and does not
    build makes the whole call raise. *)
Theorem filter_vehicles_succeeds_iff (api : Remote) (self : VehicleManager)
    (params : list (string * json)) (w : World) :
  (∃ vehicles : list Vehicle.t, (filter_vehicles api self params w).1 = Ok vehicles) ↔
  Forall (fun d => match_count d params ≠ 0%nat → ∃ v : Vehicle.t, Vehicle_init d = Ok v)
         (vehicles_json api).
Proof.
  unfold filter_vehicles, mbind, M_bind, bind, requests_get_vehicles, lift. cbn.
  apply filter_loop_succeeds_iff.
Qed.

Lemma replicate_le_1_sublist (n : nat) (v : Vehicle.t) (l k : list Vehicle.t) :
  (n ≤ 1)%nat → l `sublist_of` k → replicate n v ++ l `sublist_of` v :: k.
Proof.
  intros Hn Hl. destruct n as [|[|n]]; [|  |lia]; cbn.
  - by apply sublist_cons.
  - by apply sublist_skip.
Qed.

(** X9. With a single key-value pair and an inventory that builds,
    [filter_vehicles] is a filter in the usual sense: the result is a
    sublist of what [get_vehicles] returns, no vehicle more often than in the
    inventory and all in the inventory's order. *)
Theorem filter_vehicles_single_sublist (api : Remote) (self : VehicleManager)
    (key : string) (value : json) (w : World) (vehicles : list Vehicle.t) :
  (get_vehicles api self w).1 = Ok vehicles →
  ∃ found : list Vehicle.t,
    (filter_vehicles api self [(key, value)] w).1 = Ok found ∧
    found `sublist_of` vehicles.
Proof.
  rewrite get_vehicles_run. cbn [fst]. intros Hvs.
  destruct (build_vehicles_Forall2 _ _ _ Hvs) as (vs & -> & Hall). cbn [app].
  unfold filter_vehicles, mbind, M_bind, bind, requests_get_vehicles, lift. cbn [fst].
  rewrite (filter_loop_count _ vs) by done. cbn [app].
  eexists. split; [reflexivity|]. clear Hvs.
  induction Hall as [|d v rest vs' Hd _ IH]; cbn; [done|].
  apply replicate_le_1_sublist; [|exact IH].
  unfold match_count. cbn. destruct (matches d key value); cbn; lia.
Qed.

Lemma filter_vehicles_single_sublist_witness :
  ∃ found : list Vehicle.t,
    (filter_vehicles example_api example_manager [("id", JInt 2)]%string example_world).1
      = Ok found ∧
    found `sublist_of` example_vehicles.
Proof.
  apply (filter_vehicles_single_sublist example_api example_manager "id" (JInt 2)
           example_world example_vehicles).
  reflexivity.
Defined.

(** ** The reading methods *)

Lemma read_only_lift {A : Type} (r : result A) : read_only (lift r).
Proof. intros w. split; [done|]. exists []. by rewrite app_nil_r. Qed.

Lemma read_only_bind {A B : Type} (m : M A) (k : A → M B) :
  read_only m → (∀ a : A, read_only (k a)) → read_only (m ≫= k).
Proof.
  intros Hm Hk w. unfold mbind, M_bind, bind.
  destruct (Hm w) as (Ho & new & Hs & Hg).
  destruct (m w) as [[a|e] w1]; cbn in *.
  - destruct (Hk a w1) as (Ho' & new' & Hs' & Hg').
    split; [congruence|]. exists (new ++ new').
    split; [by rewrite Hs', Hs, app_assoc|by apply Forall_app].
  - split; [done|]. by exists new.
Qed.

Lemma read_only_requests_get_vehicles (api : Remote) (u : string) :
  read_only (requests_get_vehicles api u).
Proof.
  intros w. split; [done|]. exists [GET u Vehicles]. split; [done|]. by repeat constructor.
Qed.

Lemma read_only_requests_get_vehicle (api : Remote) (u : string) (id : Z) :
  read_only (requests_get_vehicle api u id).
Proof.
  intros w. split; [done|]. exists [GET u (VehicleById id)].
  split; [done|]. by repeat constructor.
Qed.

Lemma read_only_get_vehicles (api : Remote) (self : VehicleManager) :
  read_only (get_vehicles api self).
Proof.
  apply read_only_bind; [apply read_only_requests_get_vehicles|].
  intros. apply read_only_lift.
Qed.

Lemma read_only_get_vehicle (api : Remote) (self : VehicleManager) (id : Z) :
  read_only (get_vehicle api self id).
Proof.
  apply read_only_bind; [apply read_only_requests_get_vehicle|].
  intros. apply read_only_lift.
Qed.

(** X10. [get_vehicles], [filter_vehicles], [get_vehicle], [get_distance] and
    [get_nearest_vehicle] only read: whether they return or raise, every
    object of the caller is left as it was and every request sent is a
    [GET]. *)
Theorem reading_methods_read_only (api : Remote) (self : VehicleManager)
    (params : list (string * json)) (id id1 id2 : Z) :
  read_only (get_vehicles api self) ∧
  read_only (filter_vehicles api self params) ∧
  read_only (get_vehicle api self id) ∧
  read_only (get_distance api self id1 id2) ∧
  read_only (get_nearest_vehicle api self id).
Proof.
  split; [apply read_only_get_vehicles|].
  split.
  { apply read_only_bind; [apply read_only_requests_get_vehicles|].
    intros. apply read_only_lift. }
  split; [apply read_only_get_vehicle|].
  split.
  - apply read_only_bind; [apply read_only_get_vehicle|]. intros v1.
    apply read_only_bind; [apply read_only_get_vehicle|]. intros v2.
    apply read_only_lift.
  - apply read_only_bind; [apply read_only_get_vehicles|]. intros vs.
    apply read_only_bind; [apply read_only_get_vehicle|]. intros v.
    apply read_only_lift.
Qed.






(** ** More on the nearest-neighbour scan *)






(** ** More on [add_vehicle] *)

Lemma foldl_max_spec (rest : list Z) (x : Z) :
  (foldl Z.max x rest = x ∨ foldl Z.max x rest ∈ rest) ∧
  (x <= foldl Z.max x rest)%Z ∧
  Forall (fun y => (y <= foldl Z.max x rest)%Z) rest.
Proof.
  revert x. induction rest as [|y rest IH]; intros x; cbn.
  { split; [by left|]. split; [lia|constructor]. }
  destruct (IH (Z.max x y)) as (Hin & Hle & Hall).
  generalize dependent (foldl Z.max (Z.max x y) rest). intros F Hin Hle Hall.
  split; [|split; [lia|constructor; [lia|done]]].
  destruct Hin as [Heq|Hin]; [|right; by right].
  destruct (Z.max_spec x y) as [[_ Hm]|[_ Hm]]; rewrite Hm in Heq.
  - right. rewrite Heq. by left.
  - by left.
Qed.

Lemma py_max_spec (xs : list Z) (m : Z) :
  py_max xs = Ok m → m ∈ xs ∧ Forall (fun y => (y <= m)%Z) xs.
Proof.
  destruct xs as [|x rest]; cbn; [done|]. intros [= <-].
  destruct (foldl_max_spec rest x) as (Hin & Hle & Hall).
  split; [|by constructor].
  destruct Hin as [->|Hin]; [by left|by right].
Qed.

Lemma elem_of_truthy_ids (vehicles : list Vehicle.t) (x : Z) :
  x ∈ truthy_ids vehicles ↔
  ∃ u : Vehicle.t, u ∈ vehicles ∧ Vehicle.id u = Some x ∧ x ≠ 0%Z.
Proof.
  unfold truthy_ids. rewrite list_elem_of_omap. split.
  - intros (u & Hu & Hx). exists u. split; [done|].
    destruct (Vehicle.id u) as [n|]; cbn in Hx; [|done].
    destruct (Z.eqb_spec n 0); cbn in Hx; [done|]. by injection Hx as ->.
  - intros (u & Hu & Hid & Hx). exists u. split; [done|].
    rewrite Hid. cbn. by destruct (Z.eqb_spec x 0).
Qed.

(** X15. When no fetched id is negative, the id that [add_vehicle] computes
    is positive and differs from the id of every fetched vehicle. *)
Theorem add_vehicle_id_fresh (api : Remote) (self : VehicleManager) (vehicle : loc)
    (w : World) (vehicles : list Vehicle.t) (v : Vehicle.t) :
  build_vehicles (vehicles_json api) [] = Ok vehicles →
  objs w !! vehicle = Some v →
  Forall (fun u => ∀ n : Z, Vehicle.id u = Some n → (0 <= n)%Z) vehicles →
  Exists (fun u => truthy_id (Vehicle.id u) = true) vehicles →
  ∃ new : Z,
    objs (add_vehicle api self vehicle w).2 !! vehicle = Some (Vehicle.set_id v (Some new)) ∧
    (0 < new)%Z ∧
    Forall (fun u => Vehicle.id u ≠ Some new) vehicles.
Proof.
  intros Hvs Hobj Hnonneg Hex.
  destruct (py_max (truthy_ids vehicles)) as [m|e] eqn:Hmax.
  2:{ exfalso. apply Exists_exists in Hex as (u & Hu & Ht).
      assert (Hin : ∃ x : Z, x ∈ truthy_ids vehicles).
      { destruct (Vehicle.id u) as [n|] eqn:Hid; cbn in Ht; [|done].
        exists n. apply elem_of_truthy_ids. exists u. repeat split; try done.
        intros ->. done. }
      destruct Hin as [x Hx].
      destruct (truthy_ids vehicles); [by apply elem_of_nil in Hx|done]. }
  destruct (py_max_spec _ _ Hmax) as (Hm & Hall).
  apply elem_of_truthy_ids in Hm as (u & Hu & Hid & Hne).
  rewrite Forall_forall in Hnonneg. pose proof (Hnonneg u Hu m Hid) as Hm0.
  exists (m + 1)%Z.
  rewrite (add_vehicle_run_max api self vehicle w vehicles m v) by done. cbn.
  rewrite lookup_insert_eq. split; [done|]. split; [lia|].
  apply Forall_forall. intros u' Hu' Hid'.
  destruct (decide (m + 1 = 0)%Z) as [|Hnz]; [lia|].
  assert (Hin : (m + 1)%Z ∈ truthy_ids vehicles).
  { apply elem_of_truthy_ids. by exists u'. }
  rewrite Forall_forall in Hall. specialize (Hall _ Hin). lia.
Qed.

Lemma add_vehicle_id_fresh_witness :
  ∃ new : Z,
    objs (add_vehicle example_api example_manager 1%positive example_world).2 !! 1%positive
      = Some (Vehicle.set_id (example_vehicle None 55 37) (Some new)) ∧
    (0 < new)%Z ∧
    Forall (fun u => Vehicle.id u ≠ Some new) example_vehicles.
Proof.
  apply (add_vehicle_id_fresh example_api example_manager 1%positive example_world
           example_vehicles (example_vehicle None 55 37)).
  - reflexivity.
  - reflexivity.
  - repeat constructor; intros n [= <-]; lia.
  - apply Exists_cons_hd. reflexivity.
Defined.

(** X16. When the server answers the [POST] with the payload it received,
    [add_vehicle] returns the caller's vehicle under the id it computed. *)
Theorem add_vehicle_echo (api : Remote) (self : VehicleManager) (vehicle : loc)
    (w : World) (vehicles : list Vehicle.t) (m : Z) (v : Vehicle.t) :
  (∀ body : gmap string json, post_json api body = body) →
  build_vehicles (vehicles_json api) [] = Ok vehicles →
  py_max (truthy_ids vehicles) = Ok m →
  objs w !! vehicle = Some v →
  (add_vehicle api self vehicle w).1 = Ok (Vehicle.set_id v (Some (m + 1)%Z)).
Proof.
  intros Hecho Hvs Hmax Hobj.
  rewrite (add_vehicle_run_max api self vehicle w vehicles m v) by done. cbn.
  rewrite Hecho. apply Vehicle_init_roundtrip.
Qed.

Lemma add_vehicle_echo_witness :
  (add_vehicle echo_api example_manager 1%positive example_world).1 =
    Ok (Vehicle.set_id (example_vehicle None 55 37) (Some (3 + 1)%Z)).
Proof.
  apply (add_vehicle_echo echo_api example_manager 1%positive example_world
           example_vehicles 3 (example_vehicle None 55 37)).
  - intros body. reflexivity.
  - reflexivity.
  - reflexivity.
  - reflexivity.
Defined.

(** X17. When the inventory cannot be built, [add_vehicle] raises that error
    right after the [GET]: nothing is posted and the caller's vehicle keeps
    the id it had. *)
Theorem add_vehicle_inventory_error (api : Remote) (self : VehicleManager)
    (vehicle : loc) (w : World) (e : exn) :
  build_vehicles (vehicles_json api) [] = Raise e →
  add_vehicle api self vehicle w =
    (Raise e, Build_World (objs w) (sent w ++ [GET (url self) Vehicles])).
Proof.
  intros Hvs. unfold add_vehicle, mbind, M_bind, bind.
  by rewrite get_vehicles_run, Hvs.
Qed.

Lemma add_vehicle_inventory_error_witness :
  add_vehicle broken_api example_manager 1%positive example_world =
    (Raise TypeError,
     Build_World (objs example_world)
                 (sent example_world ++ [GET (url example_manager) Vehicles])).
Proof.
  apply (add_vehicle_inventory_error broken_api example_manager 1%positive example_world
           TypeError).
  reflexivity.
Defined.

(** ** More on the distance in exact arithmetic *)

Section MoreGeodesyFacts.
Local Open Scope R_scope.








End MoreGeodesyFacts.

(** ** [update_vehicle] and [delete_vehicle] *)

Module WritesFacts.
Import Writes.

(** X22. When the server answers the [PUT] with the payload it received,
    [update_vehicle] returns a vehicle equal to the one it was given.  The
    caller's object is not changed, and the one request sent is a [PUT] of
    the vehicle's fields to the path of its id. *)
Theorem update_vehicle_echo (server : Server) (self : VehicleManager) (vehicle : loc)
    (s : State) (v : Vehicle.t) :
  (∀ (target : string) (body : gmap string json), put_json server target body = body) →
  objs s !! vehicle = Some v →
  update_vehicle server self vehicle s =
    (Ok v, Build_State (objs s)
             (calls s ++ [PUT (vehicle_url self (Vehicle.id v)) (Vehicle_dict v)])).
Proof.
  intros Hecho Hobj. unfold update_vehicle, vars. rewrite Hobj. cbv zeta.
  by rewrite Hecho, Vehicle_init_roundtrip.
Qed.

Lemma update_vehicle_echo_witness :
  update_vehicle echo_server example_manager 1%positive example_state =
    (Ok (example_vehicle (Some 1%Z) 55 37),
     Build_State (objs example_state)
       (calls example_state ++
          [PUT (vehicle_url example_manager (Vehicle.id (example_vehicle (Some 1%Z) 55 37)))
               (Vehicle_dict (example_vehicle (Some 1%Z) 55 37))])).
Proof.
  apply (update_vehicle_echo echo_server example_manager 1%positive example_state
           (example_vehicle (Some 1%Z) 55 37)).
  - intros target body. reflexivity.
  - reflexivity.
Defined.

(** X23. [update_vehicle] does not refuse a vehicle that has no id: the
    [PUT] goes to the path that ends in [/vehicles/None]. *)
Theorem update_vehicle_without_id (server : Server) (self : VehicleManager)
    (vehicle : loc) (s : State) (v : Vehicle.t) :
  objs s !! vehicle = Some v →
  Vehicle.id v = None →
  calls (update_vehicle server self vehicle s).2 =
    calls s ++ [PUT (url self +:+ "/vehicles/None") (Vehicle_dict v)].
Proof.
  intros Hobj Hid. unfold update_vehicle, vars. rewrite Hobj. cbv zeta. cbn [snd calls].
  unfold vehicle_url. by rewrite Hid.
Qed.

Lemma update_vehicle_without_id_witness :
  calls (update_vehicle echo_server example_manager 2%positive example_state).2 =
    calls example_state ++
      [PUT (url example_manager +:+ "/vehicles/None")
           (Vehicle_dict (example_vehicle None 56 38))].
Proof.
  apply (update_vehicle_without_id echo_server example_manager 2%positive example_state
           (example_vehicle None 56 38)).
  - reflexivity.
  - reflexivity.
Defined.

Lemma vehicle_url_inj (self : VehicleManager) (i j : Z) :
  vehicle_url self (Some i) = vehicle_url self (Some j) → i = j.
Proof.
  unfold vehicle_url, py_str_id. intros H.
  apply (inj (String.app (url self))) in H.
  apply (inj (String.app "/vehicles/")) in H.
  by apply (inj pretty) in H.
Qed.

(** X24. [delete_vehicle] returns nothing, leaves the caller's objects alone
    and sends one [DELETE]; the requests for two different ids are never the
    same request. *)
Theorem delete_vehicle_target (self : VehicleManager) (i j : Z) (s : State) :
  objs (delete_vehicle self i s).2 = objs s ∧
  calls (delete_vehicle self i s).2 = calls s ++ [DELETE (vehicle_url self (Some i))] ∧
  (calls (delete_vehicle self i s).2 = calls (delete_vehicle self j s).2 → i = j).
Proof.
  split; [done|]. split; [done|]. cbn.
  intros H. apply app_inv_head in H. injection H as H.
  by apply vehicle_url_inj in H.
Qed.
End WritesFacts.

(** ** More on binary64 *)

Module Binary64More.
Import Stdlib.Floats.Floats.
Import Binary64 Binary64Facts.
Local Open Scope float_scope.

(** X25. On binary64 the conversion to radians at the head of
    [_get_distance] never overflows: for every finite number of degrees,
    however large, [radians] is a finite float, so [cos] is not handed an
    infinity. *)
Theorem radians_no_overflow (x : float) :
  is_finite x = true → is_finite (radians x) = true.
Proof. apply radians_finite. Qed.

Lemma radians_no_overflow_witness :
  is_finite (radians 0x1.fffffffffffffp+1023) = true.
Proof.
  apply (radians_no_overflow 0x1.fffffffffffffp+1023).
  reflexivity.
Defined.
End Binary64More.
